(** * Code search using embeddings: extractor and searcher

    A shallow embedding of the helper functions of
    [examples/Code_search_using_embeddings.ipynb]:
    [get_function_name], [get_until_no_space], [get_functions],
    [extract_functions_from_repo] and [search_functions].

    Python [str] values are [string]s, lists are [list]s, an exception is the
    [Raise] branch of [result], and [print] appends a line to an output log.
    Library calls whose code is not part of the notebook ([Path.glob], [open],
    [get_embedding], [cosine_similarity], [DataFrame.sort_values]) are the
    variables of the sections below; [cosine_similarity] is also modelled
    on binary64 numbers, from its description. *)

From Stdlib Require Import List Bool Arith Lia ZArith String Ascii.
From Stdlib Require Import Permutation Sorted DecimalString.
From Stdlib Require Floats.
Import ListNotations.

Open Scope string_scope.

(* ================================================================== *)
(** * Exceptions *)

Inductive exn : Type :=
| ValueError        (* str.index: substring not found *)
| IndexError        (* list index out of range *)
| OSError           (* open / read failed *)
| EmbedderError.    (* the embedding call failed *)

Inductive result (A : Type) : Type :=
| Ok (a : A)
| Raise (e : exn).

Arguments Ok {A} a.
Arguments Raise {A} e.

Definition bind {A B : Type} (m : result A) (k : A -> result B) : result B :=
  match m with
  | Ok a => k a
  | Raise e => Raise e
  end.

Notation "x <- m ;; k" := (bind m (fun x => k))
  (at level 61, m at next level, right associativity).

(** [returns m]: the call finished without raising. *)
Definition returns {A : Type} (m : result A) : Prop := exists a, m = Ok a.

(* ================================================================== *)
(** * Python string primitives *)

Definition tab : ascii := ascii_of_nat 9.
Definition line_feed : ascii := ascii_of_nat 10.
Definition vertical_tab : ascii := ascii_of_nat 11.
Definition form_feed : ascii := ascii_of_nat 12.
Definition carriage_return : ascii := ascii_of_nat 13.

(** [s.startswith(p)] *)
Definition startswith (s p : string) : bool := String.prefix p s.

(** [s.find(c)] for a one-character needle: the first position of [c]. *)
Fixpoint find_char (c : ascii) (s : string) : option nat :=
  match s with
  | EmptyString => None
  | String d s' =>
      if Ascii.eqb d c then Some 0
      else match find_char c s' with
           | Some k => Some (S k)
           | None => None
           end
  end.

(** [s.index(c)]: as [find], but a missing needle raises [ValueError]. *)
Definition str_index (c : ascii) (s : string) : result nat :=
  match find_char c s with
  | Some k => Ok k
  | None => Raise ValueError
  end.

(** [c in s] for a one-character [c]. *)
Definition contains (c : ascii) (s : string) : bool :=
  match find_char c s with
  | Some _ => true
  | None => false
  end.

(** [s[a:b]] for non-negative bounds. *)
Definition slice (s : string) (a b : nat) : string := substring a (b - a) s.

(** [s.replace(a, b)] for one-character [a] and [b]. *)
Fixpoint replace_char (a b : ascii) (s : string) : string :=
  match s with
  | EmptyString => EmptyString
  | String c s' => String (if Ascii.eqb c a then b else c) (replace_char a b s')
  end.

(** [s.split(sep)] for a one-character separator; never the empty list. *)
Fixpoint split (sep : ascii) (s : string) : list string :=
  match s with
  | EmptyString => [EmptyString]
  | String c s' =>
      if Ascii.eqb c sep then EmptyString :: split sep s'
      else match split sep s' with
           | h :: t => String c h :: t
           | [] => [String c EmptyString]
           end
  end.

(** [str(n)] for a non-negative integer. *)
Definition str_of_nat (n : nat) : string := NilEmpty.string_of_uint (Nat.to_uint n).

(* ================================================================== *)
(** * Extractor *)

Definition DEF_PREFIXES : list string := ["def "; "async def "].
Definition NEWLINE : string := String line_feed EmptyString.

(** The [for prefix in DEF_PREFIXES: if code.startswith(prefix): return ...]
    loop; falling off the end of the loop returns [None]. *)
Fixpoint get_function_name_from (prefixes : list string) (code : string)
  : result (option string) :=
  match prefixes with
  | [] => Ok None
  | prefix :: rest =>
      if startswith code prefix then
        k <- str_index "(" code ;;
        Ok (Some (slice code (String.length prefix) k))
      else get_function_name_from rest code
  end.

Definition get_function_name (code : string) : result (option string) :=
  get_function_name_from DEF_PREFIXES code.

(** The test of the inner loop of [get_until_no_space]:
    [len(l) == 0 or l[0] in [' ', '\t', ')']]. *)
Definition continues (l : string) : bool :=
  match l with
  | EmptyString => true
  | String c _ => existsb (Ascii.eqb c) [" "%char; tab; ")"%char]
  end.

(** The [for j in range(i + 1, len(all_lines))] loop with its [break],
    run over the lines after line [i]. *)
Fixpoint collect (following : list string) : list string :=
  match following with
  | [] => []
  | l :: rest => if continues l then l :: collect rest else []
  end.

Definition get_until_no_space (all_lines : list string) (i : nat) : result string :=
  match nth_error all_lines i with
  | None => Raise IndexError
  | Some first => Ok (String.concat NEWLINE (first :: collect (skipn (S i) all_lines)))
  end.

(** The dictionary yielded by [get_functions]. *)
Record FunctionRecord : Type := mkFunctionRecord {
  code : string;
  function_name : option string;
  filepath : string
}.

(** [any(l.startswith(prefix) for prefix in DEF_PREFIXES)]: the inner loop of
    [get_functions] yields at most once per line because of its [break]. *)
Definition is_def_start (l : string) : bool := existsb (startswith l) DEF_PREFIXES.

(** [file.read().replace('\r', NEWLINE).split(NEWLINE)] *)
Definition lines_of (text : string) : list string :=
  split line_feed (replace_char carriage_return line_feed text).

(** The body of [for i, l in enumerate(all_lines)], from line [i] on.  The
    generator is consumed whole by its only caller, so an exception raised
    while producing any record discards the records before it. *)
Fixpoint scan (path : string) (all_lines : list string) (i : nat) (rest : list string)
  : result (list FunctionRecord) :=
  match rest with
  | [] => Ok []
  | l :: rest' =>
      if is_def_start l then
        c <- get_until_no_space all_lines i ;;
        name <- get_function_name c ;;
        more <- scan path all_lines (S i) rest' ;;
        Ok (mkFunctionRecord c name path :: more)
      else scan path all_lines (S i) rest'
  end.

Definition functions_of_lines (path : string) (all_lines : list string)
  : result (list FunctionRecord) :=
  scan path all_lines 0 all_lines.

Definition files_message (num_files : nat) : string :=
  "Total number of .py files: " ++ str_of_nat num_files.
Definition verify_message : string :=
  "Verify openai-python repo exists and code_root is set correctly.".
Definition functions_message (num_funcs : nat) : string :=
  "Total number of functions extracted: " ++ str_of_nat num_funcs.

Section Extractor.

(** [code_root.glob('**/*.py')] as a list of path strings, in scan order;
    a root that does not exist has no matches. *)
Variable glob_py : string -> list string.
(** [open(filepath, 'r').read()] *)
Variable read_text : string -> result string.

Definition get_functions (path : string) : result (list FunctionRecord) :=
  text <- read_text path ;;
  functions_of_lines path (lines_of text).

(** The list comprehension over [code_files]. *)
Fixpoint all_functions (code_files : list string) : result (list FunctionRecord) :=
  match code_files with
  | [] => Ok []
  | f :: rest =>
      here <- get_functions f ;;
      more <- all_functions rest ;;
      Ok (here ++ more)%list
  end.

(** The value is the pair of the printed lines and the returned object
    ([None] or the list [all_funcs]). *)
Definition extract_functions_from_repo (code_root : string)
  : result (list string * option (list FunctionRecord)) :=
  let code_files := glob_py code_root in
  let num_files := List.length code_files in
  if Nat.eqb num_files 0 then
    Ok ([files_message num_files; verify_message], None)
  else
    all_funcs <- all_functions code_files ;;
    let num_funcs := List.length all_funcs in
    Ok ([files_message num_files; functions_message num_funcs], Some all_funcs).

End Extractor.

(* ================================================================== *)
(** * Searcher *)

(** [DataFrame.head(n)]: the first [n] rows, or all but the last [-n] rows
    when [n] is negative. *)
Definition head {A : Type} (n : Z) (rows : list A) : list A :=
  if (0 <=? n)%Z then firstn (Z.to_nat n) rows
  else firstn (List.length rows - Z.to_nat (- n)) rows.

(** Rows paired with their index labels, for a table that carries the
    default index: [pd.DataFrame(all_funcs)] labels its rows 0, 1, 2, ...
    by position.  A table with other labels keeps them through
    [sort_values] and [head]; nothing below depends on what the labels
    are, only on their telling the rows of one table apart. *)
Definition with_index {A : Type} (rows : list A) : list (nat * A) :=
  combine (seq 0 (List.length rows)) rows.

Definition MODEL : string := "text-embedding-3-small".

Section Searcher.

(** An embedding is a sequence of floating-point numbers and a similarity is
    one such number; both stay abstract, with [score_leb] the comparison
    [<=] on similarities. *)
Context {Embedding Score : Type}.
Variable score_leb : Score -> Score -> bool.

(** One row of the table [df]: the three extracted columns, the column
    [code_embedding], and the column [similarities] once it exists. *)
Record Row : Type := mkRow {
  func : FunctionRecord;
  code_embedding : Embedding;
  similarities : option Score
}.

Definition DataFrame : Type := list Row.

(** [get_embedding(text, model=...)] and [cosine_similarity(a, b)] of
    [utils.embeddings_utils]. *)
Variable get_embedding : string -> string -> result Embedding.
Variable cosine_similarity : Embedding -> Embedding -> Score.
(** [DataFrame.sort_values('similarities', ascending=False)] with the
    default [kind], over labelled rows. *)
Variable sort_values_desc : list (nat * Row) -> list (nat * Row).

(** [df['similarities'] = df.code_embedding.apply(lambda x: ...)]: the
    column is added to [df] itself, or overwritten when it exists. *)
Definition assign_similarities (df : DataFrame) (embedding : Embedding) : DataFrame :=
  map (fun r => mkRow (func r) (code_embedding r)
                      (Some (cosine_similarity (code_embedding r) embedding))) df.

(** The value is the pair of the table [df] as the call leaves it and the
    returned table [res].  A failing [get_embedding] raises before [df] is
    touched.  The [pprint] loop only reads [res] and is left out. *)
Definition search_functions (df : DataFrame) (code_query : string) (n : Z)
  : result (DataFrame * list (nat * Row)) :=
  embedding <- get_embedding code_query MODEL ;;
  let df' := assign_similarities df embedding in
  let res := head n (sort_values_desc (with_index df')) in
  Ok (df', res).

(** [a] may stand before [b] in a table sorted by descending similarity. *)
Definition sim_ge (a b : nat * Row) : Prop :=
  match similarities (snd a), similarities (snd b) with
  | Some x, Some y => score_leb y x = true
  | _, _ => False
  end.

Definition scored (a : nat * Row) : Prop := similarities (snd a) <> None.

(** What [sort_values] promises whatever its [kind]: the rows are kept, and
    they come out in non-increasing order of the sort column. *)
Definition sorts_descending : Prop :=
  (forall l, Permutation (sort_values_desc l) l) /\
  (forall l, Forall scored l -> StronglySorted sim_ge (sort_values_desc l)).

(** Rows with equal similarity keep the order of their labels. *)
Definition ties_in_corpus_order (res : list (nat * Row)) : Prop :=
  forall pre a mid b post,
    res = (pre ++ a :: mid ++ b :: post)%list ->
    similarities (snd a) = similarities (snd b) ->
    fst a < fst b.

(** "searching reads the corpus but does not modify any record or the
    corpus structure": the table is after the call what it was before. *)
Definition leaves_corpus_unchanged (df : DataFrame) (code_query : string) (n : Z) : Prop :=
  forall df' res, search_functions df code_query n = Ok (df', res) -> df' = df.

End Searcher.

Arguments Row : clear implicits.
Arguments DataFrame : clear implicits.

Section SearcherContract.

Context {Embedding Score : Type}.
Variable score_leb : Score -> Score -> bool.
Variable cosine_similarity : Embedding -> Embedding -> Score.
Variable sort_values_desc : list (nat * Row Embedding Score) -> list (nat * Row Embedding Score).

(** The record a row was built from: the extracted columns and the
    embedding. *)
Definition record_of (r : Row Embedding Score) : FunctionRecord * Embedding :=
  (func r, code_embedding r).

(** The similarity stored in a row is that of its embedding with the
    query embedding. *)
Definition scored_by_query (embedding : Embedding) (a : nat * Row Embedding Score) : Prop :=
  similarities (snd a)
  = Some (cosine_similarity (code_embedding (snd a)) embedding).

(** The embedding of row [a] is at least as similar to the query embedding
    as that of row [b]. *)
Definition at_least_as_similar (embedding : Embedding)
  (a b : nat * Row Embedding Score) : Prop :=
  score_leb (cosine_similarity (code_embedding (snd b)) embedding)
            (cosine_similarity (code_embedding (snd a)) embedding) = true.

(** Any two stored similarities of the rows compare, one way or the other:
    none is missing and none is a NaN, which compares with nothing. *)
Definition comparable (l : list (nat * Row Embedding Score)) : Prop :=
  forall a b, In a l -> In b l -> sim_ge score_leb a b \/ sim_ge score_leb b a.

(** What [sort_values] promises for tables with NaN as well: the rows are
    kept, and they come out in non-increasing order of the sort column when
    its values are comparable. *)
Definition sorts_comparable : Prop :=
  forall l,
    Permutation (sort_values_desc l) l /\
    (comparable l -> StronglySorted (sim_ge score_leb) (sort_values_desc l)).

(** No similarity of a record of the table with the query embedding is a
    NaN: any two of them compare. *)
Definition comparable_with (df : DataFrame Embedding Score) (embedding : Embedding) : Prop :=
  forall r1 r2, In r1 df -> In r2 df ->
    score_leb (cosine_similarity (code_embedding r1) embedding)
              (cosine_similarity (code_embedding r2) embedding) = true \/
    score_leb (cosine_similarity (code_embedding r2) embedding)
              (cosine_similarity (code_embedding r1) embedding) = true.

End SearcherContract.

(* ================================================================== *)
(** * The claims of the specification, in its own words *)

(** A whitespace character of ASCII: space, tab, line feed, vertical tab,
    form feed, carriage return. *)
Definition is_whitespace (c : ascii) : bool :=
  existsb (Ascii.eqb c)
    [" "%char; tab; line_feed; vertical_tab; form_feed; carriage_return].

(** A line holding a single form feed, as used to separate pages. *)
Definition page_break : string := String form_feed EmptyString.

(** "either empty or begin with a whitespace character or a
    closing-parenthesis character" *)
Definition spec_continues (l : string) : bool :=
  match l with
  | EmptyString => true
  | String c _ => is_whitespace c || Ascii.eqb c ")"%char
  end.

(** [run] is the maximal run of lines satisfying [keep] at the front of
    [following]: it stops at the first line violating [keep]. *)
Definition maximal_run (keep : string -> bool) (following run : list string) : Prop :=
  exists rest,
    following = (run ++ rest)%list /\
    forallb keep run = true /\
    match rest with
    | [] => True
    | l :: _ => keep l = false
    end.

(** The code field as the specification words it, for a continuation test
    [keep]: line [i] joined with the maximal run after it. *)
Definition code_is_first_and_run (keep : string -> bool)
  (all_lines : list string) (i : nat) : Prop :=
  forall first, nth_error all_lines i = Some first ->
    exists run,
      maximal_run keep (skipn (S i) all_lines) run /\
      get_until_no_space all_lines i = Ok (String.concat NEWLINE (first :: run)).





(** The number of definition starts among the lines of a file. *)
Definition count_defs (all_lines : list string) : nat :=
  List.length (filter is_def_start all_lines).

Definition nonempty (s : string) : bool := negb (String.eqb s EmptyString).

(** The code field built for line [i] has an opening parenthesis. *)
Definition code_has_paren (all_lines : list string) (i : nat) : bool :=
  match get_until_no_space all_lines i with
  | Ok c => contains "(" c
  | Raise _ => false
  end.

Definition definitions_have_paren (all_lines : list string) : bool :=
  forallb (fun i => match nth_error all_lines i with
                    | Some l => negb (is_def_start l) || code_has_paren all_lines i
                    | None => true
                    end)
          (seq 0 (List.length all_lines)).

Definition records_of (returned : option (list FunctionRecord)) : list FunctionRecord :=
  match returned with
  | Some recs => recs
  | None => []
  end.

Section ExtractorClaims.

Variable glob_py : string -> list string.
Variable read_text : string -> result string.

Definition defs_in_file (path : string) : nat :=
  match read_text path with
  | Ok text => count_defs (lines_of text)
  | Raise _ => 0
  end.

(** F: the definitions in all the files that match under the root. *)
Definition total_definitions (code_root : string) : nat :=
  list_sum (map defs_in_file (glob_py code_root)).

(** "the extractor returns exactly F records, each with non-empty code";
    the [None] returned for a root without matching files counts as no
    records. *)
Definition returns_all_definitions (code_root : string) : Prop :=
  exists out returned,
    extract_functions_from_repo glob_py read_text code_root = Ok (out, returned) /\
    List.length (records_of returned) = total_definitions code_root /\
    forallb (fun r => nonempty (code r)) (records_of returned) = true.

(** Every definition of the file has an opening parenthesis in its code
    field, and the file can be read. *)
Definition well_formed_file (path : string) : Prop :=
  exists text,
    read_text path = Ok text /\ definitions_have_paren (lines_of text) = true.

End ExtractorClaims.

(* ================================================================== *)
(** * Test doubles for the library calls *)

Section InsertionSort.

Context {A : Type}.
(** [before x y]: [x] is placed in front of [y]. *)
Variable before : A -> A -> bool.

Fixpoint insert (x : A) (l : list A) : list A :=
  match l with
  | [] => [x]
  | y :: l' => if before x y then x :: l else y :: insert x l'
  end.

Fixpoint insertion_sort (l : list A) : list A :=
  match l with
  | [] => []
  | x :: l' => insert x (insertion_sort l')
  end.

End InsertionSort.

(** Scores with an incomparable value, as floating-point numbers have:
    [None] stands for NaN and compares with nothing, itself included. *)
Definition nan_leb (x y : option Z) : bool :=
  match x, y with
  | Some a, Some b => (a <=? b)%Z
  | _, _ => false
  end.

Section SortBySimilarity.

Context {Embedding Score : Type}.
Variable score_leb : Score -> Score -> bool.

(** Row [a] goes in front of row [b] when its similarity is at least that
    of [b]. *)
Definition goes_before (a b : nat * Row Embedding Score) : bool :=
  match similarities (snd a), similarities (snd b) with
  | Some x, Some y => score_leb y x
  | _, _ => false
  end.

Definition sort_by_similarity : list (nat * Row Embedding Score) -> list (nat * Row Embedding Score) :=
  insertion_sort goes_before.

End SortBySimilarity.

Module Stub.

(** Integer vectors and integer scores stand in for floating-point ones. *)
Definition Embedding : Type := list Z.
Definition Score : Type := Z.
Definition score_leb : Score -> Score -> bool := Z.leb.

(** A deterministic embedder: the length of the text and its number of
    opening parentheses. *)
Definition get_embedding (text model : string) : result Embedding :=
  Ok [Z.of_nat (String.length text);
      Z.of_nat (List.length (filter (Ascii.eqb "(") (list_ascii_of_string text)))].

(** The dot product, as a stand-in for the similarity. *)
Fixpoint similarity (a b : Embedding) : Score :=
  match a, b with
  | x :: a', y :: b' => (x * y + similarity a' b')%Z
  | _, _ => 0%Z
  end.

Definition key (a : nat * Row Embedding Score) : Z :=
  match similarities (snd a) with
  | Some s => s
  | None => 0%Z
  end.

(** Two sorters by descending similarity: the first keeps tied rows in
    their order, the second reverses them. *)
Definition stable_sort : list (nat * Row Embedding Score) -> list (nat * Row Embedding Score) :=
  insertion_sort (fun a b => (key b <=? key a)%Z).

Definition reversing_sort : list (nat * Row Embedding Score) -> list (nat * Row Embedding Score) :=
  insertion_sort (fun a b => (key b <? key a)%Z).

Definition row (c : string) (name : string) (e : Embedding) : Row Embedding Score :=
  mkRow (mkFunctionRecord c (Some name) "util.py") e None.

Definition corpus : DataFrame Embedding Score :=
  [ row "def add(a, b): return a + b" "add" [1; 0]%Z;
    row "def sub(a, b): return a - b" "sub" [2; 1]%Z;
    row "def neg(a): return -a" "neg" [1; 0]%Z ].

Definition search := search_functions get_embedding similarity stable_sort.

(** A file system with one Python file under ["repo"]. *)
Definition glob_py (code_root : string) : list string :=
  if String.eqb code_root "repo" then ["repo/util.py"] else [].

Definition util_py : string :=
  "def outer():" ++ NEWLINE ++
  "    def inner():" ++ NEWLINE ++
  "        pass" ++ NEWLINE ++
  NEWLINE ++
  "async def fetch(url): return url".

Definition read_text (path : string) : result string :=
  if String.eqb path "repo/util.py" then Ok util_py else Raise OSError.

(** A definition whose parameter list starts on a continuation line:
    [def f \] followed by [(x): return x]. *)
Definition continued_py : string :=
  "def f " ++ String (ascii_of_nat 92) NEWLINE ++ "(x): return x".

End Stub.

(* ================================================================== *)
(** * Cosine similarity on binary64 numbers *)

Module embeddings_utils.

Import Stdlib.Floats.PrimFloat.

(** Modelled from the spec: [cosine_similarity] is defined in
    [utils/embeddings_utils.py], which is not among the sources.  The
    specification gives it as the "dot product divided by the product of
    the two vectors' magnitudes", on sequences of floating-point numbers of
    equal dimension.  The products are summed from left to right, starting
    from zero; the magnitude is the square root of the dot product of a
    vector with itself. *)
Definition dot (a b : list float) : float :=
  fold_left (fun acc xy => add acc (mul (fst xy) (snd xy))) (combine a b) zero.

Definition norm (a : list float) : float := sqrt (dot a a).

Definition cosine_similarity (a b : list float) : float :=
  div (dot a b) (mul (norm a) (norm b)).







End embeddings_utils.

(* ================================================================== *)
(** * Printing the results *)

(** ['-' * 70] *)
Definition SEPARATOR : string := string_of_list_ascii (repeat "-"%char 70).

(** ["\n".join(code.split("\n")[:n_lines])]: a list slice [l[:n]] keeps the
    first [n] items, or all but the last [-n] when [n] is negative, as
    [head] does. *)
Definition preview (code : string) (n_lines : Z) : string :=
  String.concat NEWLINE (head n_lines (split line_feed code)).

(** How an f-string renders a name that may be [None]. *)
Definition show_name (name : option string) : string :=
  match name with
  | Some s => s
  | None => "None"
  end.

Section Printing.

Context {Embedding Score : Type}.
(** How an f-string renders [round(s, 3)]. *)
Variable show_rounded : Score -> string.
Variable get_embedding : string -> string -> result Embedding.
Variable cosine_similarity : Embedding -> Embedding -> Score.
Variable sort_values_desc : list (nat * Row Embedding Score) -> list (nat * Row Embedding Score).

(** A missing similarity is a NaN of the table. *)
Definition show_similarity (s : option Score) : string :=
  match s with
  | Some x => show_rounded x
  | None => "nan"
  end.

(** The three [print] calls of the loop body, for one row [r[1]]. *)
Definition print_row (n_lines : Z) (r : nat * Row Embedding Score) : list string :=
  [ filepath (func (snd r)) ++ ":" ++ show_name (function_name (func (snd r)))
      ++ "  score=" ++ show_similarity (similarities (snd r));
    preview (code (func (snd r))) n_lines;
    SEPARATOR ].

(** [search_functions] with its [pprint] loop: the value is the list of
    printed items, one per [print] call, with what [search_functions]
    gives. *)
Definition search_functions_pprint
  (df : DataFrame Embedding Score) (code_query : string) (n : Z)
  (pprint : bool) (n_lines : Z)
  : result (list string * (DataFrame Embedding Score * list (nat * Row Embedding Score))) :=
  found <- search_functions get_embedding cosine_similarity sort_values_desc
             df code_query n ;;
  Ok (if pprint then flat_map (print_row n_lines) (snd found) else [], found).

End Printing.

(* ================================================================== *)
(** * Facts about the string primitives *)

Lemma startswith_app (p s : string) : startswith (p ++ s) p = true.
Proof.
  unfold startswith. induction p as [|c p IH]; simpl.
  - now destruct s.
  - destruct (ascii_dec c c) as [_|Hne]; [exact IH | now elim Hne].
Qed.

Lemma find_char_app_l (c : ascii) (a b : string) (k : nat) :
  find_char c a = Some k -> find_char c (a ++ b) = Some k.
Proof.
  revert k. induction a as [|d a IH]; simpl; intros k H; [discriminate|].
  destruct (Ascii.eqb d c); [exact H|].
  destruct (find_char c a) as [j|]; [|discriminate].
  now rewrite (IH j eq_refl).
Qed.

Lemma find_char_app_r (c : ascii) (a b : string) :
  find_char c a = None ->
  find_char c (a ++ b) = option_map (Nat.add (String.length a)) (find_char c b).
Proof.
  induction a as [|d a IH]; simpl; intros H.
  - now destruct (find_char c b).
  - destruct (Ascii.eqb d c); [discriminate|].
    destruct (find_char c a); [discriminate|].
    rewrite (IH eq_refl). now destruct (find_char c b).
Qed.

Lemma find_char_here (c : ascii) (a b : string) :
  find_char c a = None ->
  find_char c (a ++ String c b) = Some (String.length a).
Proof.
  intros H. rewrite (find_char_app_r _ _ _ H). simpl.
  rewrite Ascii.eqb_refl. simpl. f_equal. lia.
Qed.

Lemma contains_app_l (c : ascii) (a b : string) :
  contains c a = true -> contains c (a ++ b) = true.
Proof.
  unfold contains. destruct (find_char c a) as [k|] eqn:E; [|discriminate].
  now rewrite (find_char_app_l _ _ b _ E).
Qed.

Lemma substring_whole_prefix (a b : string) :
  substring 0 (String.length a) (a ++ b) = a.
Proof.
  induction a as [|c a IH]; simpl.
  - now destruct b.
  - now rewrite IH.
Qed.

Lemma substring_skip (p s : string) (m : nat) :
  substring (String.length p) m (p ++ s) = substring 0 m s.
Proof. induction p as [|c p IH]; simpl; [reflexivity | exact IH]. Qed.

Lemma slice_between (p name rest : string) :
  slice (p ++ name ++ rest) (String.length p) (String.length p + String.length name) = name.
Proof.
  unfold slice. rewrite substring_skip.
  replace (String.length p + String.length name - String.length p)
    with (String.length name) by lia.
  apply substring_whole_prefix.
Qed.

Lemma concat_starts_with_first (sep first : string) (more : list string) :
  exists tail, String.concat sep (first :: more) = first ++ tail.
Proof.
  destruct more as [|x more]; simpl.
  - exists EmptyString. induction first as [|c f IH]; simpl; [reflexivity | now rewrite <- IH].
  - now exists (sep ++ String.concat sep (x :: more)).
Qed.

(* ================================================================== *)
(** * get_function_name *)

Lemma get_function_name_from_at (prefixes : list string) (code : string) :
  forallb (fun p => negb (startswith code p)) prefixes = true ->
  get_function_name_from prefixes code = Ok None.
Proof.
  induction prefixes as [|p ps IH]; simpl; [reflexivity|].
  intros H. apply andb_prop in H as [Hp Hps].
  destruct (startswith code p); [discriminate | now apply IH].
Qed.

Lemma is_def_start_cases (l : string) :
  is_def_start l = true ->
  (startswith l "def " = true) \/
  (startswith l "def " = false /\ startswith l "async def " = true).
Proof.
  unfold is_def_start, DEF_PREFIXES. simpl.
  destruct (startswith l "def "); simpl; [now left|].
  rewrite orb_false_r. intros H. now right.
Qed.

(** A matched prefix makes the result depend only on the lookup of the
    opening parenthesis. *)
Lemma get_function_name_matched (code : string) :
  is_def_start code = true ->
  exists p, In p DEF_PREFIXES /\ startswith code p = true /\
    get_function_name code =
      (k <- str_index "(" code ;; Ok (Some (slice code (String.length p) k))).
Proof.
  intros H. unfold get_function_name, DEF_PREFIXES.
  destruct (is_def_start_cases _ H) as [H1 | [H1 H2]].
  - exists "def ". simpl. rewrite H1. auto.
  - exists "async def ". simpl. rewrite H1, H2. auto.
Qed.

Lemma get_function_name_returns (code : string) :
  contains "(" code = true -> returns (get_function_name code).
Proof.
  unfold contains, returns. intros H.
  destruct (is_def_start code) eqn:D.
  - destruct (get_function_name_matched _ D) as (p & _ & _ & ->).
    unfold str_index. destruct (find_char "(" code); [simpl; eauto | discriminate].
  - exists None. apply get_function_name_from_at.
    unfold is_def_start in D. simpl in *.
    apply orb_false_elim in D as [D1 D2]. apply orb_false_elim in D2 as [D2 _].
    now rewrite D1, D2.
Qed.

Lemma get_function_name_raises (code : string) :
  is_def_start code = true -> contains "(" code = false ->
  get_function_name code = Raise ValueError.
Proof.
  intros Hd Hc.
  destruct (get_function_name_matched _ Hd) as (p & _ & _ & ->).
  unfold contains in Hc. unfold str_index.
  destruct (find_char "(" code); [discriminate | reflexivity].
Qed.

(** C4: for an input made of a definition prefix, a name without an opening
    parenthesis, an opening parenthesis and anything after it,
    [get_function_name] returns exactly the name; for an input that starts
    with none of the prefixes it returns [None]. *)
Theorem get_function_name_between_prefix_and_paren :
  (forall p name rest,
      In p DEF_PREFIXES -> contains "(" name = false ->
      get_function_name (p ++ name ++ String "(" rest) = Ok (Some name)) /\
  (forall code,
      is_def_start code = false -> get_function_name code = Ok None).
Proof.
  split.
  - intros p name rest Hp Hname.
    assert (Hnone : find_char "(" name = None).
    { unfold contains in Hname. now destruct (find_char "(" name). }
    assert (Hstart : is_def_start (p ++ name ++ String "(" rest) = true).
    { unfold is_def_start. apply existsb_exists. exists p. split; [exact Hp|].
      apply startswith_app. }
    destruct (get_function_name_matched _ Hstart) as (q & Hq & Hsw & ->).
    assert (q = p) as ->.
    { simpl in Hp, Hq.
      destruct Hp as [<-|[<-|[]]], Hq as [<-|[<-|[]]];
        try reflexivity; simpl in Hsw; discriminate. }
    assert (Hk : find_char "(" (p ++ name ++ String "(" rest)
                 = Some (String.length p + String.length name)).
    { rewrite find_char_app_r.
      - rewrite (find_char_here _ _ _ Hnone). reflexivity.
      - simpl in Hp. destruct Hp as [<-|[<-|[]]]; reflexivity. }
    unfold str_index. rewrite Hk. simpl. now rewrite slice_between.
  - intros code H. apply get_function_name_from_at.
    unfold is_def_start in H. simpl in *.
    apply orb_false_elim in H as [D1 D2]. apply orb_false_elim in D2 as [D2 _].
    now rewrite D1, D2.
Qed.

Lemma get_function_name_between_prefix_and_paren_witness :
  get_function_name "def log_debug(message, **params):" = Ok (Some "log_debug") /\
  get_function_name "class Timer:" = Ok None.
Proof.
  destruct get_function_name_between_prefix_and_paren as [Hname Hnone]. split.
  - apply (Hname "def " "log_debug" "message, **params):"); [simpl; auto | reflexivity].
  - apply (Hnone "class Timer:"). reflexivity.
Defined.

(** C10: [get_function_name] raises [ValueError] on an input that starts
    with a definition prefix and has no opening parenthesis; it returns
    whenever the input has one; and the code that [get_until_no_space]
    builds from a line with an opening parenthesis always has one, so the
    raising branch is not reached for such a line. *)
Theorem get_function_name_partial :
  (forall code,
      is_def_start code = true -> contains "(" code = false ->
      get_function_name code = Raise ValueError) /\
  (forall code,
      contains "(" code = true -> returns (get_function_name code)) /\
  (forall all_lines i l,
      nth_error all_lines i = Some l -> contains "(" l = true ->
      exists c, get_until_no_space all_lines i = Ok c /\
                returns (get_function_name c)).
Proof.
  split; [|split].
  - exact get_function_name_raises.
  - exact get_function_name_returns.
  - intros all_lines i l Hl Hc. unfold get_until_no_space. rewrite Hl.
    eexists. split; [reflexivity|].
    apply get_function_name_returns.
    destruct (concat_starts_with_first NEWLINE l (collect (skipn (S i) all_lines)))
      as [tail ->].
    now apply contains_app_l.
Qed.

Lemma get_function_name_partial_witness :
  get_function_name "def handler" = Raise ValueError /\
  returns (get_function_name "def handler(event):") /\
  exists c, get_until_no_space ["import os"; "def handler(event):"; "    pass"] 1 = Ok c /\
            returns (get_function_name c).
Proof.
  destruct get_function_name_partial as (Hraise & Hret & Hcode).
  split; [|split].
  - apply (Hraise "def handler"); reflexivity.
  - apply (Hret "def handler(event):"); reflexivity.
  - apply (Hcode ["import os"; "def handler(event):"; "    pass"] 1 "def handler(event):");
      reflexivity.
Defined.

(* ================================================================== *)
(** * get_until_no_space *)

Lemma collect_is_maximal_run (following : list string) :
  maximal_run continues following (collect following).
Proof.
  induction following as [|l rest IH]; simpl.
  - exists []. repeat split.
  - destruct (continues l) eqn:E.
    + destruct IH as (tl & Heq & Hall & Hstop).
      exists tl. simpl. rewrite E, Hall. repeat split; [now f_equal | exact Hstop].
    + exists (l :: rest). repeat split. exact E.
Qed.

Lemma maximal_run_unique (keep : string -> bool) (following run1 run2 : list string) :
  maximal_run keep following run1 -> maximal_run keep following run2 -> run1 = run2.
Proof.
  revert following run2.
  induction run1 as [|a run1 IH]; intros following run2
    (rest1 & E1 & A1 & S1) (rest2 & E2 & A2 & S2).
  - destruct run2 as [|b run2]; [reflexivity|]. exfalso.
    simpl in A2. apply andb_prop in A2 as [Hb _].
    rewrite E1 in E2. simpl in E2.
    destruct rest1 as [|x rest1]; [discriminate|].
    injection E2 as -> _. congruence.
  - simpl in A1. apply andb_prop in A1 as [Ha A1].
    rewrite E1 in E2. simpl in E2.
    destruct run2 as [|b run2].
    + exfalso. simpl in E2.
      destruct rest2 as [|x rest2]; [discriminate|].
      injection E2 as -> _. congruence.
    + simpl in A2. apply andb_prop in A2 as [Hb A2].
      injection E2 as -> E2. f_equal.
      apply (IH (run1 ++ rest1)%list).
      * now exists rest1.
      * now exists rest2.
Qed.

Lemma skipn_past_end {A : Type} (l : list A) (n : nat) :
  List.length l <= n -> skipn n l = [].
Proof.
  revert n. induction l as [|x l IH]; intros [|n] H; simpl in *;
    try reflexivity; try lia. apply IH. lia.
Qed.

(** C2, amended: the code field is line [i] joined by newline with the
    maximal run of following lines that are empty or begin with a space, a
    tab or a closing parenthesis; for the final line it is that line
    alone. *)
Theorem get_until_no_space_first_and_run (all_lines : list string) (i : nat) :
  code_is_first_and_run continues all_lines i /\
  (forall first,
      nth_error all_lines i = Some first -> S i = List.length all_lines ->
      get_until_no_space all_lines i = Ok first).
Proof.
  split.
  - intros first Hfirst. exists (collect (skipn (S i) all_lines)). split.
    + apply collect_is_maximal_run.
    + unfold get_until_no_space. now rewrite Hfirst.
  - intros first Hfirst Hlast. unfold get_until_no_space. rewrite Hfirst.
    rewrite skipn_past_end by lia. reflexivity.
Qed.

Lemma get_until_no_space_first_and_run_witness :
  (exists run,
      maximal_run continues ["    return a"; ""; "x = 1"] run /\
      get_until_no_space ["def f(a):"; "    return a"; ""; "x = 1"] 0
        = Ok (String.concat NEWLINE ("def f(a):" :: run))) /\
  get_until_no_space ["x = 1"; "def g(): pass"] 1 = Ok "def g(): pass".
Proof.
  split.
  - apply (proj1 (get_until_no_space_first_and_run
                    ["def f(a):"; "    return a"; ""; "x = 1"] 0) "def f(a):").
    reflexivity.
  - apply (proj2 (get_until_no_space_first_and_run ["x = 1"; "def g(): pass"] 1));
      reflexivity.
Defined.

(** C2 as stated fails: a line that begins with a form feed, which is a
    whitespace character, ends the run, so the code field is shorter than
    line 0 joined with the maximal run of lines that are empty or begin with
    a whitespace character or a closing parenthesis. *)
Lemma whitespace_run_counterexample :
  ~ code_is_first_and_run spec_continues
      ["def f(a):"; "    return a"; page_break; "x = 1"] 0.
Proof.
  intros H. destruct (H "def f(a):" eq_refl) as (run & Hrun & Hcode).
  assert (Hmax : maximal_run spec_continues ["    return a"; page_break; "x = 1"]
                   ["    return a"; page_break]).
  { exists ["x = 1"]. repeat split. }
  simpl skipn in Hrun.
  rewrite (maximal_run_unique _ _ _ _ Hrun Hmax) in Hcode.
  vm_compute in Hcode. discriminate Hcode.
Qed.

(* ================================================================== *)
(** * get_functions and extract_functions_from_repo *)

Lemma startswith_app_l (l p tail : string) :
  startswith l p = true -> startswith (l ++ tail) p = true.
Proof.
  unfold startswith. revert l. induction p as [|c p IH]; intros l H.
  - now destruct (l ++ tail).
  - destruct l as [|d l]; simpl in *; [discriminate|].
    destruct (ascii_dec c d); [now apply IH | discriminate].
Qed.

Lemma is_def_start_app (l tail : string) :
  is_def_start l = true -> is_def_start (l ++ tail) = true.
Proof.
  unfold is_def_start. rewrite !existsb_exists.
  intros (p & Hp & H). exists p. split; [exact Hp | now apply startswith_app_l].
Qed.

Lemma is_def_start_nonempty (l : string) : is_def_start l = true -> nonempty l = true.
Proof. now destruct l. Qed.

Lemma continues_not_def_start (l : string) : continues l = true -> is_def_start l = false.
Proof.
  destruct l as [|c l]; [reflexivity|]. simpl. rewrite !orb_true_iff.
  intros [H|[H|[H|H]]]; try discriminate; apply Ascii.eqb_eq in H; subst c; reflexivity.
Qed.

Lemma nth_error_middle {A : Type} (pre : list A) (x : A) (post : list A) :
  nth_error (pre ++ x :: post) (List.length pre) = Some x.
Proof. induction pre as [|y pre IH]; simpl; [reflexivity | exact IH]. Qed.

(** The code built for a definition start begins with that line. *)
Lemma get_until_no_space_begins (all_lines : list string) (i : nat) (l : string) :
  nth_error all_lines i = Some l ->
  exists tail, get_until_no_space all_lines i = Ok (l ++ tail).
Proof.
  intros H. unfold get_until_no_space. rewrite H.
  destruct (concat_starts_with_first NEWLINE l (collect (skipn (S i) all_lines)))
    as [tail ->].
  now exists tail.
Qed.

(** When the scan returns, its records are those of the definition starts,
    in order. *)
Lemma scan_records (path : string) (all_lines rest : list string) :
  forall pre recs,
    all_lines = (pre ++ rest)%list ->
    scan path all_lines (List.length pre) rest = Ok recs ->
    Forall2 (fun l r => startswith (code r) l = true /\ filepath r = path)
            (filter is_def_start rest) recs.
Proof.
  induction rest as [|l rest IH]; intros pre recs Hall Hscan; simpl in *.
  - injection Hscan as <-. constructor.
  - assert (Hnext : all_lines = ((pre ++ [l]) ++ rest)%list)
      by now rewrite <- app_assoc.
    assert (Hlen : List.length (pre ++ [l]) = S (List.length pre))
      by (rewrite length_app; simpl; lia).
    destruct (is_def_start l) eqn:D.
    + destruct (get_until_no_space_begins all_lines (List.length pre) l) as [tail Hc].
      { rewrite Hall. apply nth_error_middle. }
      rewrite Hc in Hscan. simpl in Hscan.
      destruct (get_function_name (l ++ tail)) as [name|]; [|discriminate].
      simpl in Hscan. rewrite <- Hlen in Hscan.
      destruct (scan path all_lines (List.length (pre ++ [l])) rest) as [more|] eqn:E;
        [|discriminate].
      injection Hscan as <-. constructor.
      * simpl. split; [apply startswith_app | reflexivity].
      * now apply (IH (pre ++ [l])%list).
    + rewrite <- Hlen in Hscan. now apply (IH (pre ++ [l])%list).
Qed.

Lemma definitions_have_paren_at (all_lines : list string) (i : nat) (l : string) :
  definitions_have_paren all_lines = true ->
  nth_error all_lines i = Some l -> is_def_start l = true ->
  code_has_paren all_lines i = true.
Proof.
  unfold definitions_have_paren. rewrite forallb_forall. intros H Hl Hd.
  assert (Hi : In i (seq 0 (List.length all_lines))).
  { apply in_seq. split; [lia|]. simpl. apply nth_error_Some. congruence. }
  specialize (H i Hi). rewrite Hl, Hd in H. exact H.
Qed.

(** The scan returns when the code field of every definition has an opening
    parenthesis. *)
Lemma scan_returns (path : string) (all_lines rest : list string) :
  definitions_have_paren all_lines = true ->
  forall pre,
    all_lines = (pre ++ rest)%list ->
    returns (scan path all_lines (List.length pre) rest).
Proof.
  intros Hwf. induction rest as [|l rest IH]; intros pre Hall; simpl in *.
  - now exists [].
  - assert (Hnext : all_lines = ((pre ++ [l]) ++ rest)%list)
      by now rewrite <- app_assoc.
    assert (Hlen : List.length (pre ++ [l]) = S (List.length pre))
      by (rewrite length_app; simpl; lia).
    destruct (IH _ Hnext) as [more Hmore]. rewrite Hlen in Hmore.
    destruct (is_def_start l) eqn:D; [|now exists more].
    assert (Hl : nth_error all_lines (List.length pre) = Some l).
    { rewrite Hall. apply nth_error_middle. }
    pose proof (definitions_have_paren_at _ _ _ Hwf Hl D) as Hp.
    unfold code_has_paren in Hp.
    destruct (get_until_no_space all_lines (List.length pre)) as [c|]; [|discriminate].
    simpl.
    destruct (get_function_name_returns c Hp) as [name ->].
    simpl. rewrite Hmore. simpl. now eexists.
Qed.

(** Conversely, a scan that returns has found the parenthesis of every
    definition on its way. *)
Lemma scan_returns_inv (path : string) (all_lines rest : list string) :
  forall pre recs,
    all_lines = (pre ++ rest)%list ->
    scan path all_lines (List.length pre) rest = Ok recs ->
    forall k l,
      nth_error rest k = Some l -> is_def_start l = true ->
      code_has_paren all_lines (List.length pre + k) = true.
Proof.
  induction rest as [|l0 rest IH]; intros pre recs Hall Hscan k l Hk Hd.
  - destruct k; discriminate Hk.
  - assert (Hnext : all_lines = ((pre ++ [l0]) ++ rest)%list)
      by now rewrite <- app_assoc.
    assert (Hlen : List.length (pre ++ [l0]) = S (List.length pre))
      by (rewrite length_app; simpl; lia).
    simpl in Hscan. destruct k as [|k]; simpl in Hk.
    + injection Hk as ->. rewrite Hd in Hscan. rewrite Nat.add_0_r.
      destruct (get_until_no_space_begins all_lines (List.length pre) l) as [tail Hc].
      { rewrite Hall. apply nth_error_middle. }
      unfold code_has_paren. rewrite Hc in *. simpl in Hscan.
      destruct (contains "(" (l ++ tail)) eqn:E; [reflexivity|].
      rewrite (get_function_name_raises (l ++ tail)) in Hscan;
        [discriminate Hscan | now apply is_def_start_app | exact E].
    + replace (List.length pre + S k) with (List.length (pre ++ [l0]) + k) by lia.
      rewrite <- Hlen in Hscan.
      destruct (is_def_start l0).
      * destruct (get_until_no_space all_lines (List.length pre)) as [c|];
          [|discriminate]. simpl in Hscan.
        destruct (get_function_name c) as [name|]; [|discriminate]. simpl in Hscan.
        destruct (scan path all_lines (List.length (pre ++ [l0])) rest) as [more|] eqn:E;
          [|discriminate].
        exact (IH _ _ Hnext E k l Hk Hd).
      * exact (IH _ _ Hnext Hscan k l Hk Hd).
Qed.

Lemma records_nonempty (lines : list string) (recs : list FunctionRecord) (path : string) :
  Forall2 (fun l r => startswith (code r) l = true /\ filepath r = path)
          (filter is_def_start lines) recs ->
  forallb (fun r => nonempty (code r)) recs = true.
Proof.
  intros H.
  assert (Hdefs : Forall (fun l => is_def_start l = true) (filter is_def_start lines)).
  { apply Forall_forall. intros l Hl. now apply filter_In in Hl. }
  induction H as [|l r ls rs [Hsw _] _ IH]; [reflexivity|].
  inversion Hdefs as [|? ? Hd Hds]; subst. simpl. rewrite IH by assumption.
  rewrite andb_true_r. unfold nonempty.
  destruct (code r); [|reflexivity].
  destruct l; [discriminate Hd | discriminate Hsw].
Qed.

Section ExtractorFacts.

Variable glob_py : string -> list string.
Variable read_text : string -> result string.

Lemma get_functions_well_formed (path : string) :
  well_formed_file read_text path ->
  exists recs,
    get_functions read_text path = Ok recs /\
    List.length recs = defs_in_file read_text path /\
    forallb (fun r => nonempty (code r)) recs = true.
Proof.
  intros (text & Hread & Hwf). unfold get_functions, defs_in_file. rewrite Hread. simpl.
  unfold functions_of_lines.
  destruct (scan_returns path (lines_of text) (lines_of text) Hwf [] eq_refl) as [recs Hrecs].
  simpl in Hrecs. exists recs. split; [exact Hrecs|].
  pose proof (scan_records path (lines_of text) (lines_of text) [] recs eq_refl Hrecs) as H.
  split.
  - unfold count_defs. symmetry. exact (Forall2_length H).
  - exact (records_nonempty _ _ _ H).
Qed.

Lemma all_functions_well_formed (code_files : list string) :
  Forall (well_formed_file read_text) code_files ->
  exists recs,
    all_functions read_text code_files = Ok recs /\
    List.length recs = list_sum (map (defs_in_file read_text) code_files) /\
    forallb (fun r => nonempty (code r)) recs = true.
Proof.
  induction 1 as [|f files Hf _ IH]; simpl.
  - now exists [].
  - destruct (get_functions_well_formed f Hf) as (here & -> & Hn & Hne).
    destruct IH as (more & -> & Hm & Hme). simpl.
    exists (here ++ more)%list. split; [reflexivity|]. split.
    + rewrite length_app. lia.
    + rewrite forallb_app, Hne, Hme. reflexivity.
Qed.

Lemma get_functions_returns_inv (path : string) :
  returns (get_functions read_text path) -> well_formed_file read_text path.
Proof.
  intros [recs H]. unfold get_functions in H. unfold well_formed_file.
  destruct (read_text path) as [text|]; [|discriminate]. simpl in H.
  exists text. split; [reflexivity|].
  unfold definitions_have_paren. apply forallb_forall. intros i _.
  destruct (nth_error (lines_of text) i) as [l|] eqn:Hl; [|reflexivity].
  destruct (is_def_start l) eqn:D; [|reflexivity]. simpl.
  exact (scan_returns_inv path (lines_of text) (lines_of text) [] recs eq_refl H i l Hl D).
Qed.

(** X7: the extractor returns, rather than raises, exactly when every
    matching file can be read and the code field of each of its definitions
    has an opening parenthesis. *)
Lemma extractor_returns_iff (code_root : string) :
  returns (extract_functions_from_repo glob_py read_text code_root) <->
  Forall (well_formed_file read_text) (glob_py code_root).
Proof.
  unfold extract_functions_from_repo. split.
  - intros [v H]. destruct (glob_py code_root) as [|f files]; [constructor|].
    cbn [List.length Nat.eqb] in H.
    destruct (all_functions read_text (f :: files)) as [recs|] eqn:E; [|discriminate].
    clear H. revert recs E. generalize (f :: files). clear f files.
    induction l as [|f files IH]; intros recs E; [constructor|].
    simpl in E.
    destruct (get_functions read_text f) as [here|] eqn:Hf; [|discriminate].
    simpl in E.
    destruct (all_functions read_text files) as [more|] eqn:Hm; [|discriminate].
    constructor.
    + apply get_functions_returns_inv. rewrite Hf. now exists here.
    + now apply (IH more).
  - intros Hwf. destruct (glob_py code_root) as [|f files]; [now eexists|].
    destruct (all_functions_well_formed _ Hwf) as (recs & -> & _).
    cbn [List.length Nat.eqb bind]. now eexists.
Qed.

(** When every matching file can be read and the code field of each of
    its definitions has an opening parenthesis, the extractor returns
    exactly F records, F being the number of lines that begin with a
    definition prefix in the matching files, and each record has a
    non-empty code field. *)
Theorem extractor_returns_all_definitions (code_root : string) :
  Forall (well_formed_file read_text) (glob_py code_root) ->
  returns_all_definitions glob_py read_text code_root.
Proof.
  intros Hwf. unfold returns_all_definitions, extract_functions_from_repo, total_definitions.
  destruct (glob_py code_root) as [|f files] eqn:G.
  - simpl. do 2 eexists. split; [reflexivity|]. split; reflexivity.
  - destruct (all_functions_well_formed _ Hwf) as (recs & -> & Hlen & Hne).
    cbn [List.length Nat.eqb bind]. do 2 eexists. split; [reflexivity|].
    simpl records_of. split; assumption.
Qed.

(** C7: with no matching file under the root, the extractor prints the
    count of zero and the diagnostic message and returns [None]; it does
    not raise. *)
Theorem extractor_reports_no_files (code_root : string) :
  glob_py code_root = [] ->
  extract_functions_from_repo glob_py read_text code_root
  = Ok (["Total number of .py files: 0";
         "Verify openai-python repo exists and code_root is set correctly."],
        None).
Proof. intros H. unfold extract_functions_from_repo. rewrite H. reflexivity. Qed.

End ExtractorFacts.

Lemma extractor_returns_all_definitions_witness :
  returns_all_definitions Stub.glob_py Stub.read_text "repo".
Proof.
  apply extractor_returns_all_definitions.
  constructor; [|constructor].
  exists Stub.util_py. split; reflexivity.
Defined.

(** C3: the extractor does not return the record of a definition whose
    parameter list starts on a continuation line.  The file has one
    definition; its code field stops before the line with the opening
    parenthesis, the name lookup raises [ValueError], and the extraction
    raises instead of returning the one record. *)
Lemma extractor_counterexample :
  total_definitions (fun _ => ["repo/f.py"]) (fun _ => Ok Stub.continued_py) "repo" = 1 /\
  extract_functions_from_repo (fun _ => ["repo/f.py"]) (fun _ => Ok Stub.continued_py) "repo"
    = Raise ValueError /\
  ~ returns_all_definitions (fun _ => ["repo/f.py"]) (fun _ => Ok Stub.continued_py) "repo".
Proof.
  repeat split.
  intros (out & returned & H & _). vm_compute in H. discriminate H.
Qed.

Lemma extractor_reports_no_files_witness :
  extract_functions_from_repo Stub.glob_py Stub.read_text "elsewhere"
  = Ok (["Total number of .py files: 0";
         "Verify openai-python repo exists and code_root is set correctly."],
        None).
Proof. apply extractor_reports_no_files. reflexivity. Defined.

(* ================================================================== *)
(** * Nested definitions *)

Lemma collect_prefix (following : list string) :
  exists rest, following = (collect following ++ rest)%list.
Proof.
  destruct (collect_is_maximal_run following) as (rest & H & _). now exists rest.
Qed.

Lemma skipn_nth_error {A : Type} (l : list A) (i : nat) (x : A) :
  nth_error l i = Some x -> skipn i l = x :: skipn (S i) l.
Proof.
  revert i. induction l as [|y l IH]; intros [|i] H; simpl in *; try discriminate.
  - now injection H as ->.
  - now apply IH.
Qed.






(* ================================================================== *)
(** * Sorting *)

Section InsertionSortFacts.

Context {A : Type}.
Variable before : A -> A -> bool.
Variable R : A -> A -> Prop.
Variable P : A -> Prop.
Hypothesis before_true : forall x y, P x -> P y -> before x y = true -> R x y.
Hypothesis before_false : forall x y, P x -> P y -> before x y = false -> R y x.
Hypothesis R_trans : forall x y z, R x y -> R y z -> R x z.

Lemma insert_perm (x : A) (l : list A) : Permutation (insert before x l) (x :: l).
Proof.
  induction l as [|y l IH]; simpl; [reflexivity|].
  destruct (before x y); [reflexivity|].
  rewrite IH. apply perm_swap.
Qed.

Lemma insertion_sort_perm (l : list A) : Permutation (insertion_sort before l) l.
Proof.
  induction l as [|x l IH]; simpl; [reflexivity|].
  rewrite insert_perm. now constructor.
Qed.

Lemma insert_sorted (x : A) (l : list A) :
  P x -> Forall P l -> StronglySorted R l -> StronglySorted R (insert before x l).
Proof.
  intros Hx HP Hs. induction Hs as [|y l Hs IH Hy]; simpl.
  - repeat constructor.
  - inversion HP as [|? ? Py Pl]; subst.
    destruct (before x y) eqn:E.
    + constructor; [now constructor|].
      constructor; [now apply before_true|].
      eapply Forall_impl; [|exact Hy]. intros z Hz.
      eapply R_trans; [|exact Hz]. now apply before_true.
    + constructor; [now apply IH|].
      apply (Permutation_Forall (Permutation_sym (insert_perm x l))).
      constructor; [now apply before_false | exact Hy].
Qed.

Lemma insertion_sort_sorted (l : list A) :
  Forall P l -> StronglySorted R (insertion_sort before l).
Proof.
  induction 1 as [|x l Hx Hl IH]; simpl; [constructor|].
  apply insert_sorted; [exact Hx | | exact IH].
  apply (Permutation_Forall (Permutation_sym (insertion_sort_perm l))). exact Hl.
Qed.

End InsertionSortFacts.

Lemma StronglySorted_firstn {A : Type} (R : A -> A -> Prop) (n : nat) (l : list A) :
  StronglySorted R l -> StronglySorted R (firstn n l).
Proof.
  intros H. revert n. induction H as [|x l Hs IH Hx]; intros [|n]; simpl;
    try constructor; [apply IH|].
  apply Forall_forall. intros y Hy. rewrite Forall_forall in Hx.
  apply Hx. rewrite <- (firstn_skipn n l). apply in_or_app. now left.
Qed.

Lemma sim_ge_trans (a b c : nat * Row Stub.Embedding Stub.Score) :
  sim_ge Stub.score_leb a b -> sim_ge Stub.score_leb b c -> sim_ge Stub.score_leb a c.
Proof.
  unfold sim_ge, Stub.score_leb.
  destruct (similarities (snd a)), (similarities (snd b)), (similarities (snd c));
    try tauto. rewrite !Z.leb_le. lia.
Qed.

Lemma stable_sort_sorts :
  sorts_descending Stub.score_leb Stub.stable_sort.
Proof.
  split; intros l; [apply insertion_sort_perm|].
  apply insertion_sort_sorted with (P := scored); [| |exact sim_ge_trans];
    unfold scored, sim_ge, Stub.key, Stub.score_leb; intros x y Hx Hy;
    destruct (similarities (snd x)), (similarities (snd y)); try congruence;
    rewrite ?Z.leb_le, ?Z.leb_gt; lia.
Qed.

Lemma reversing_sort_sorts :
  sorts_descending Stub.score_leb Stub.reversing_sort.
Proof.
  split; intros l; [apply insertion_sort_perm|].
  apply insertion_sort_sorted with (P := scored); [| |exact sim_ge_trans];
    unfold scored, sim_ge, Stub.key, Stub.score_leb; intros x y Hx Hy;
    destruct (similarities (snd x)), (similarities (snd y)); try congruence;
    rewrite ?Z.leb_le, ?Z.ltb_lt, ?Z.ltb_ge; lia.
Qed.

Section SortBySimilarityFacts.

Context {Embedding Score : Type}.
Variable score_leb : Score -> Score -> bool.
Hypothesis score_leb_trans :
  forall x y z, score_leb x y = true -> score_leb y z = true -> score_leb x z = true.

Lemma sim_ge_transitive (a b c : nat * Row Embedding Score) :
  sim_ge score_leb a b -> sim_ge score_leb b c -> sim_ge score_leb a c.
Proof.
  unfold sim_ge.
  destruct (similarities (snd a)), (similarities (snd b)), (similarities (snd c));
    try tauto. intros Hab Hbc. exact (score_leb_trans _ _ _ Hbc Hab).
Qed.

(** Insertion by similarity keeps the promise of [sort_values] whenever
    the comparison is transitive, as that of floating-point numbers is; it
    asks nothing of tables that hold a NaN. *)
Lemma sort_by_similarity_sorts :
  sorts_comparable score_leb (@sort_by_similarity Embedding Score score_leb).
Proof.
  intros l. split; [apply insertion_sort_perm|]. intros Hcmp.
  apply insertion_sort_sorted with (P := fun x => In x l).
  - intros x y _ _. unfold goes_before, sim_ge.
    destruct (similarities (snd x)), (similarities (snd y)); try discriminate. auto.
  - intros x y Hx Hy Hfalse. destruct (Hcmp x y Hx Hy) as [H|H]; [|exact H].
    exfalso. unfold goes_before, sim_ge in *.
    destruct (similarities (snd x)), (similarities (snd y)); try contradiction.
    congruence.
  - exact sim_ge_transitive.
  - apply Forall_forall. auto.
Qed.

End SortBySimilarityFacts.

Lemma nan_leb_trans (x y z : option Z) :
  nan_leb x y = true -> nan_leb y z = true -> nan_leb x z = true.
Proof.
  destruct x, y, z; simpl; try discriminate. rewrite !Z.leb_le. lia.
Qed.

(** The promise can be kept for scores that include a NaN. *)
Lemma sorts_comparable_with_nan (Embedding : Type) :
  sorts_comparable nan_leb (@sort_by_similarity Embedding (option Z) nan_leb).
Proof. apply sort_by_similarity_sorts. exact nan_leb_trans. Qed.

Lemma comparable_scored {Embedding Score : Type} (score_leb : Score -> Score -> bool)
  (l : list (nat * Row Embedding Score)) :
  comparable score_leb l -> Forall scored l.
Proof.
  intros H. apply Forall_forall. intros a Ha.
  destruct (H a a Ha Ha) as [Hs|Hs]; unfold sim_ge, scored in *;
    destruct (similarities (snd a)); try contradiction; discriminate.
Qed.

Lemma stable_sort_sorts_comparable :
  sorts_comparable Stub.score_leb Stub.stable_sort.
Proof.
  intros l. destruct stable_sort_sorts as [Hperm Hsorted].
  split; [apply Hperm|]. intros Hcmp. apply Hsorted. exact (comparable_scored _ _ Hcmp).
Qed.

(* ================================================================== *)
(** * search_functions *)

Lemma head_length {A : Type} (k : nat) (rows : list A) :
  List.length (head (Z.of_nat k) rows) = Nat.min k (List.length rows).
Proof.
  unfold head. destruct (Z.leb_spec 0 (Z.of_nat k)); [|lia].
  now rewrite Nat2Z.id, length_firstn.
Qed.

Lemma head_skipn {A : Type} (k : nat) (rows : list A) :
  (head (Z.of_nat k) rows ++ skipn k rows)%list = rows.
Proof.
  unfold head. destruct (Z.leb_spec 0 (Z.of_nat k)); [|lia].
  rewrite Nat2Z.id. apply firstn_skipn.
Qed.

Lemma with_index_length {A : Type} (rows : list A) :
  List.length (with_index rows) = List.length rows.
Proof. unfold with_index. rewrite length_combine, length_seq. lia. Qed.

Lemma with_index_rows {A : Type} (rows : list A) (a : nat * A) :
  In a (with_index rows) -> In (snd a) rows.
Proof. destruct a as [i r]. unfold with_index. apply in_combine_r. Qed.

Section SearcherFacts.

Context {Embedding Score : Type}.
Variable score_leb : Score -> Score -> bool.
Variable get_embedding : string -> string -> result Embedding.
Variable cosine_similarity : Embedding -> Embedding -> Score.
Variable sort_values_desc : list (nat * Row Embedding Score) -> list (nat * Row Embedding Score).

Lemma assign_similarities_length (df : DataFrame Embedding Score) (e : Embedding) :
  List.length (assign_similarities cosine_similarity df e) = List.length df.
Proof. unfold assign_similarities. apply length_map. Qed.

Lemma assign_similarities_scored (df : DataFrame Embedding Score) (e : Embedding) :
  Forall scored (with_index (assign_similarities cosine_similarity df e)).
Proof.
  apply Forall_forall. intros a Ha. apply with_index_rows in Ha.
  unfold assign_similarities in Ha. apply in_map_iff in Ha as (r & Hr & _).
  unfold scored. rewrite <- Hr. simpl. discriminate.
Qed.

Lemma with_index_snd {A : Type} (rows : list A) : map snd (with_index rows) = rows.
Proof.
  unfold with_index. generalize 0 as start.
  induction rows as [|x rows IH]; intros start; simpl; [reflexivity|].
  now rewrite IH.
Qed.

Lemma StronglySorted_among {A : Type} (R R' : A -> A -> Prop) (l : list A) :
  (forall a b, In a l -> In b l -> R a b -> R' a b) ->
  StronglySorted R l -> StronglySorted R' l.
Proof.
  intros Himp Hs. induction Hs as [|x l Hs IH Hx]; constructor.
  - apply IH. intros a b Ha Hb. apply Himp; now right.
  - rewrite Forall_forall in *. intros y Hy. apply Himp; [now left | now right |].
    now apply Hx.
Qed.

(** Each labelled row of the table a search leaves behind is a record of
    the table it was given, with its similarity to the query. *)
Lemma assigned_rows (df : DataFrame Embedding Score) (e : Embedding)
  (a : nat * Row Embedding Score) :
  In a (with_index (assign_similarities cosine_similarity df e)) ->
  scored_by_query cosine_similarity e a /\
  exists r, In r df /\ record_of (snd a) = record_of r.
Proof.
  intros Ha. apply with_index_rows in Ha. unfold assign_similarities in Ha.
  apply in_map_iff in Ha as (r & Hr & Hin). unfold scored_by_query.
  rewrite <- Hr. simpl. split; [reflexivity|]. now exists r.
Qed.

Lemma assigned_rows_comparable (df : DataFrame Embedding Score) (e : Embedding) :
  comparable_with score_leb cosine_similarity df e ->
  comparable score_leb (with_index (assign_similarities cosine_similarity df e)).
Proof.
  intros Hcmp a b Ha Hb.
  apply with_index_rows in Ha, Hb. unfold assign_similarities in Ha, Hb.
  apply in_map_iff in Ha as (ra & Hra & Hina), Hb as (rb & Hrb & Hinb).
  unfold sim_ge. rewrite <- Hra, <- Hrb. simpl.
  destruct (Hcmp ra rb Hina Hinb); auto.
Qed.

Lemma assigned_records (df : DataFrame Embedding Score) (e : Embedding) :
  map record_of (assign_similarities cosine_similarity df e) = map record_of df.
Proof. unfold assign_similarities. rewrite map_map. reflexivity. Qed.

(** C1: when the embedder answers and no similarity of a record with the
    query is a NaN, [search_functions] with [n = k] returns exactly [k]
    rows when the corpus has at least [k] records and all the records when
    it has fewer; every returned row is a record of the corpus with its
    cosine similarity to the query as score, and the rows come in
    non-increasing order of that cosine similarity. *)
Theorem search_returns_top_k
  (df : DataFrame Embedding Score) (code_query : string) (k : nat) (e : Embedding) :
  sorts_comparable score_leb sort_values_desc ->
  get_embedding code_query MODEL = Ok e ->
  comparable_with score_leb cosine_similarity df e ->
  exists df' res,
    search_functions get_embedding cosine_similarity sort_values_desc
      df code_query (Z.of_nat k) = Ok (df', res) /\
    (k <= List.length df -> List.length res = k) /\
    (List.length df < k ->
     Permutation (map (fun a => record_of (snd a)) res) (map record_of df)) /\
    Forall (fun a => scored_by_query cosine_similarity e a /\
                     In (record_of (snd a)) (map record_of df)) res /\
    StronglySorted (at_least_as_similar score_leb cosine_similarity e) res.
Proof.
  intros Hsort He Hcmp. unfold search_functions. rewrite He. simpl.
  set (df' := assign_similarities cosine_similarity df e).
  set (sorted := sort_values_desc (with_index df')).
  destruct (Hsort (with_index df')) as [Hperm Hsorted]. fold sorted in Hperm, Hsorted.
  assert (Hlen : List.length sorted = List.length df).
  { rewrite (Permutation_length Hperm), with_index_length.
    apply assign_similarities_length. }
  assert (Hrows : forall a, In a sorted ->
             scored_by_query cosine_similarity e a /\
             exists r, In r df /\ record_of (snd a) = record_of r).
  { intros a Ha. apply assigned_rows. exact (Permutation_in _ Hperm Ha). }
  assert (Hs : StronglySorted (at_least_as_similar score_leb cosine_similarity e) sorted).
  { apply (StronglySorted_among (sim_ge score_leb)).
    - intros a b Ha Hb. destruct (Hrows a Ha) as [Hsa _], (Hrows b Hb) as [Hsb _].
      unfold sim_ge, at_least_as_similar, scored_by_query in *. now rewrite Hsa, Hsb.
    - apply Hsorted. now apply assigned_rows_comparable. }
  assert (Hhead : head (Z.of_nat k) sorted = firstn k sorted).
  { unfold head. destruct (Z.leb_spec 0 (Z.of_nat k)); [|lia]. now rewrite Nat2Z.id. }
  exists df', (head (Z.of_nat k) sorted). split; [reflexivity|]. rewrite Hhead.
  split; [|split; [|split]].
  - intros Hk. rewrite length_firstn, Hlen. lia.
  - intros Hk. rewrite firstn_all2 by lia.
    rewrite (Permutation_map (fun a => record_of (snd a)) Hperm).
    rewrite <- (map_map snd record_of), with_index_snd.
    unfold df'. now rewrite assigned_records.
  - apply Forall_forall. intros a Ha.
    assert (Hin : In a sorted).
    { rewrite <- (firstn_skipn k sorted). apply in_or_app. now left. }
    destruct (Hrows a Hin) as (Hsc & r & Hr & Heq). split; [exact Hsc|].
    rewrite Heq. now apply in_map.
  - now apply StronglySorted_firstn.
Qed.

(** C8, amended: a call to search leaves the rows of the corpus in place
    with their code, function name, file path and embedding unchanged, and
    sets the column [similarities] of the corpus itself to the similarity
    of each row with the query. *)
Theorem search_keeps_record_columns
  (df : DataFrame Embedding Score) (code_query : string) (n : Z) (e : Embedding) :
  get_embedding code_query MODEL = Ok e ->
  exists df' res,
    search_functions get_embedding cosine_similarity sort_values_desc
      df code_query n = Ok (df', res) /\
    map func df' = map func df /\
    map code_embedding df' = map code_embedding df /\
    map similarities df' =
      map (fun r => Some (cosine_similarity (code_embedding r) e)) df.
Proof.
  intros He. unfold search_functions. rewrite He. simpl.
  do 2 eexists. split; [reflexivity|].
  unfold assign_similarities. rewrite !map_map. simpl. auto.
Qed.

(** A failing embedder makes the search raise, with the corpus untouched. *)
Lemma search_propagates_embedder_failure
  (df : DataFrame Embedding Score) (code_query : string) (n : Z) (err : exn) :
  get_embedding code_query MODEL = Raise err ->
  search_functions get_embedding cosine_similarity sort_values_desc df code_query n
  = Raise err.
Proof. intros H. unfold search_functions. now rewrite H. Qed.

End SearcherFacts.

Lemma corpus_comparable (e : Stub.Embedding) :
  comparable_with Stub.score_leb Stub.similarity Stub.corpus e.
Proof.
  intros r1 r2 _ _. unfold Stub.score_leb. rewrite !Z.leb_le. lia.
Qed.

Lemma search_returns_top_k_witness :
  (exists df' res,
      Stub.search Stub.corpus "sub(" 2 = Ok (df', res) /\
      (2 <= List.length Stub.corpus -> List.length res = 2) /\
      (List.length Stub.corpus < 2 ->
       Permutation (map (fun a => record_of (snd a)) res) (map record_of Stub.corpus)) /\
      Forall (fun a => scored_by_query Stub.similarity [4; 1]%Z a /\
                       In (record_of (snd a)) (map record_of Stub.corpus)) res /\
      StronglySorted (at_least_as_similar Stub.score_leb Stub.similarity [4; 1]%Z) res) /\
  (exists df' res,
      Stub.search Stub.corpus "sub(" 5 = Ok (df', res) /\
      (5 <= List.length Stub.corpus -> List.length res = 5) /\
      (List.length Stub.corpus < 5 ->
       Permutation (map (fun a => record_of (snd a)) res) (map record_of Stub.corpus)) /\
      Forall (fun a => scored_by_query Stub.similarity [4; 1]%Z a /\
                       In (record_of (snd a)) (map record_of Stub.corpus)) res /\
      StronglySorted (at_least_as_similar Stub.score_leb Stub.similarity [4; 1]%Z) res).
Proof.
  split.
  - apply (search_returns_top_k Stub.score_leb Stub.get_embedding Stub.similarity
             Stub.stable_sort Stub.corpus "sub(" 2 [4; 1]%Z).
    + exact stable_sort_sorts_comparable.
    + reflexivity.
    + apply corpus_comparable.
  - apply (search_returns_top_k Stub.score_leb Stub.get_embedding Stub.similarity
             Stub.stable_sort Stub.corpus "sub(" 5 [4; 1]%Z).
    + exact stable_sort_sorts_comparable.
    + reflexivity.
    + apply corpus_comparable.
Defined.

Lemma search_keeps_record_columns_witness :
  exists df' res,
    Stub.search Stub.corpus "sub(" 2 = Ok (df', res) /\
    map func df' = map func Stub.corpus /\
    map code_embedding df' = map code_embedding Stub.corpus /\
    map similarities df' =
      map (fun r => Some (Stub.similarity (code_embedding r) [4; 1]%Z)) Stub.corpus.
Proof.
  apply (search_keeps_record_columns Stub.get_embedding Stub.similarity
           Stub.stable_sort Stub.corpus "sub(" 2 [4; 1]%Z).
  reflexivity.
Defined.

(** C8 as stated fails: after a search the corpus has the column
    [similarities], which it did not have before. *)
Lemma search_modifies_corpus_counterexample :
  ~ leaves_corpus_unchanged Stub.get_embedding Stub.similarity Stub.stable_sort
      Stub.corpus "sub(" 2.
Proof.
  intros H. specialize (H _ _ eq_refl). vm_compute in H. discriminate H.
Qed.

(* ================================================================== *)
(** * Order of tied rows *)

(** Both sorters keep the promise of [sort_values], and they order the two
    rows of [corpus] that tie on the query differently: the promise alone
    does not fix the order of tied rows. *)
Lemma tie_order_depends_on_sorter :
  sorts_descending Stub.score_leb Stub.stable_sort /\
  sorts_descending Stub.score_leb Stub.reversing_sort /\
  (exists df' res,
      search_functions Stub.get_embedding Stub.similarity Stub.stable_sort
        Stub.corpus "sub(" 3 = Ok (df', res) /\
      map fst res = [1; 0; 2]) /\
  (exists df' res,
      search_functions Stub.get_embedding Stub.similarity Stub.reversing_sort
        Stub.corpus "sub(" 3 = Ok (df', res) /\
      map fst res = [1; 2; 0] /\ ~ ties_in_corpus_order res).
Proof.
  split; [exact stable_sort_sorts|]. split; [exact reversing_sort_sorts|]. split.
  - do 2 eexists. split; reflexivity.
  - do 2 eexists. split; [reflexivity|]. split; [reflexivity|].
    intros H.
    specialize (H [(1, mkRow (func (Stub.row "def sub(a, b): return a - b" "sub" [2; 1]%Z))
                               [2; 1]%Z (Some 9%Z))]
                  (2, mkRow (func (Stub.row "def neg(a): return -a" "neg" [1; 0]%Z))
                            [1; 0]%Z (Some 4%Z))
                  []
                  (0, mkRow (func (Stub.row "def add(a, b): return a + b" "add" [1; 0]%Z))
                            [1; 0]%Z (Some 4%Z))
                  [] eq_refl eq_refl).
    simpl in H. lia.
Qed.

(* ================================================================== *)
(** * Splitting into lines and joining back *)

Lemma split_not_nil (sep : ascii) (s : string) : split sep s <> [].
Proof.
  destruct s as [|c s]; simpl; [discriminate|].
  destruct (Ascii.eqb c sep); [discriminate|].
  destruct (split sep s); discriminate.
Qed.

Lemma concat_cons (sep x : string) (xs : list string) :
  xs <> [] -> String.concat sep (x :: xs) = x ++ sep ++ String.concat sep xs.
Proof. destruct xs; [congruence | reflexivity]. Qed.

Lemma concat_split (sep : ascii) (s : string) :
  String.concat (String sep EmptyString) (split sep s) = s.
Proof.
  induction s as [|c s IH]; [reflexivity|]. simpl split.
  destruct (Ascii.eqb_spec c sep) as [->|Hne].
  - rewrite concat_cons by apply split_not_nil. simpl. now rewrite IH.
  - destruct (split sep s) as [|h t] eqn:E; [now elim (split_not_nil sep s)|].
    destruct t as [|h' t].
    + simpl in *. now rewrite IH.
    + change (String.concat (String sep "") (String c h :: h' :: t))
        with (String c (h ++ String sep "" ++ String.concat (String sep "") (h' :: t))).
      f_equal. exact IH.
Qed.

Lemma split_pieces_avoid (sep d : ascii) (s : string) :
  (d = sep \/ find_char d s = None) ->
  Forall (fun l => find_char d l = None) (split sep s).
Proof.
  induction s as [|c s IH]; intros H; simpl.
  - repeat constructor.
  - assert (Htail : d = sep \/ find_char d s = None).
    { destruct H as [H|H]; [now left|]. right. simpl in H.
      destruct (Ascii.eqb c d); [discriminate|].
      now destruct (find_char d s). }
    specialize (IH Htail).
    destruct (Ascii.eqb_spec c sep) as [->|Hne].
    + constructor; [reflexivity | exact IH].
    + destruct (split sep s) as [|h t]; [repeat constructor|].
      * simpl. destruct (Ascii.eqb_spec c d) as [->|_]; [|reflexivity].
        destruct H as [H|H]; [congruence|]. simpl in H.
        now rewrite Ascii.eqb_refl in H.
      * inversion IH as [|? ? Hh Ht]; subst. constructor; [|exact Ht].
        simpl. destruct (Ascii.eqb_spec c d) as [->|_].
        -- destruct H as [H|H]; [congruence|]. simpl in H.
           now rewrite Ascii.eqb_refl in H.
        -- now rewrite Hh.
Qed.

Lemma split_without_sep (sep : ascii) (x : string) :
  find_char sep x = None -> split sep x = [x].
Proof.
  induction x as [|c x IH]; intros H; [reflexivity|]. simpl in *.
  rewrite Ascii.eqb_sym. destruct (Ascii.eqb sep c) eqn:E.
  - rewrite Ascii.eqb_sym, E in H. discriminate.
  - rewrite Ascii.eqb_sym, E in H.
    destruct (find_char sep x); [discriminate|]. now rewrite IH.
Qed.

Lemma split_app_sep (sep : ascii) (x r : string) :
  find_char sep x = None ->
  split sep (x ++ String sep r) = x :: split sep r.
Proof.
  induction x as [|c x IH]; intros H; simpl.
  - now rewrite Ascii.eqb_refl.
  - simpl in H. destruct (Ascii.eqb c sep); [discriminate|].
    destruct (find_char sep x); [discriminate|]. now rewrite IH.
Qed.

Lemma split_concat (sep : ascii) (ls : list string) :
  ls <> [] -> Forall (fun l => find_char sep l = None) ls ->
  split sep (String.concat (String sep EmptyString) ls) = ls.
Proof.
  induction ls as [|x xs IH]; intros Hne Hall; [congruence|].
  inversion Hall as [|? ? Hx Hxs]; subst.
  destruct xs as [|y ys].
  - simpl. now apply split_without_sep.
  - rewrite concat_cons by discriminate. simpl append.
    rewrite split_app_sep by exact Hx. f_equal. apply IH; [discriminate | exact Hxs].
Qed.

Lemma replace_char_removes (a b : ascii) (s : string) :
  a <> b -> find_char a (replace_char a b s) = None.
Proof.
  intros Hab. induction s as [|c s IH]; [reflexivity|]. simpl.
  rewrite IH. destruct (Ascii.eqb_spec c a) as [->|Hca].
  - destruct (Ascii.eqb_spec b a); [congruence | reflexivity].
  - destruct (Ascii.eqb_spec c a); [congruence | reflexivity].
Qed.

Lemma carriage_return_is_not_line_feed : carriage_return <> line_feed.
Proof. intros H. vm_compute in H. discriminate H. Qed.

Lemma lines_of_no_breaks (text : string) :
  Forall (fun l => find_char line_feed l = None /\ find_char carriage_return l = None)
         (lines_of text).
Proof.
  unfold lines_of.
  pose proof (split_pieces_avoid line_feed line_feed
                (replace_char carriage_return line_feed text) (or_introl eq_refl)) as H1.
  pose proof (split_pieces_avoid line_feed carriage_return
                (replace_char carriage_return line_feed text)
                (or_intror (replace_char_removes _ _ text carriage_return_is_not_line_feed)))
    as H2.
  rewrite Forall_forall in *. intros l Hl. split; [now apply H1 | now apply H2].
Qed.

(** X1: joining the lines of a file with newlines gives back its text with
    every carriage return turned into a newline; in particular a text
    without carriage returns is recovered unchanged. *)
Theorem lines_of_join (text : string) :
  String.concat NEWLINE (lines_of text) = replace_char carriage_return line_feed text /\
  (contains carriage_return text = false ->
   String.concat NEWLINE (lines_of text) = text).
Proof.
  assert (H : String.concat NEWLINE (lines_of text)
              = replace_char carriage_return line_feed text)
    by apply concat_split.
  split; [exact H|]. intros Hcr. rewrite H. clear H.
  unfold contains in Hcr. induction text as [|c t IH]; [reflexivity|].
  simpl in *. destruct (Ascii.eqb c carriage_return); [discriminate|].
  destruct (find_char carriage_return t); [discriminate|]. now rewrite IH.
Qed.

Lemma lines_of_join_witness :
  String.concat NEWLINE (lines_of Stub.util_py) = Stub.util_py.
Proof. apply (proj2 (lines_of_join Stub.util_py)). reflexivity. Defined.

(** X2: a file always has at least one line, and no line holds a newline
    or a carriage return. *)
Theorem lines_of_are_lines (text : string) :
  lines_of text <> [] /\
  forall l, In l (lines_of text) ->
    contains line_feed l = false /\ contains carriage_return l = false.
Proof.
  split; [apply split_not_nil|]. intros l Hl.
  pose proof (lines_of_no_breaks text) as H. rewrite Forall_forall in H.
  destruct (H l Hl) as [H1 H2]. unfold contains. now rewrite H1, H2.
Qed.

Lemma lines_of_are_lines_witness :
  contains line_feed "    def inner():" = false /\
  contains carriage_return "    def inner():" = false.
Proof.
  apply (proj2 (lines_of_are_lines Stub.util_py)). vm_compute. tauto.
Defined.

Lemma in_skipn {A : Type} (n : nat) (l : list A) (x : A) :
  In x (skipn n l) -> In x l.
Proof. intros H. rewrite <- (firstn_skipn n l). apply in_or_app. now right. Qed.

(** X3: the code field built for a line of a file, split at its newlines,
    is that line followed by the lines collected after it, and these lines
    stand one after the other in the file, from that line on. *)
Theorem code_is_block_of_lines (text : string) (i : nat) (first : string) :
  nth_error (lines_of text) i = Some first ->
  exists c rest,
    get_until_no_space (lines_of text) i = Ok c /\
    split line_feed c = first :: collect (skipn (S i) (lines_of text)) /\
    lines_of text = (firstn i (lines_of text) ++ split line_feed c ++ rest)%list.
Proof.
  intros Hfirst. unfold get_until_no_space. rewrite Hfirst.
  destruct (collect_prefix (skipn (S i) (lines_of text))) as [rest Hrest].
  assert (Hsplit : split line_feed
            (String.concat NEWLINE (first :: collect (skipn (S i) (lines_of text))))
          = first :: collect (skipn (S i) (lines_of text))).
  { apply split_concat; [discriminate|].
    pose proof (lines_of_no_breaks text) as Hall. rewrite Forall_forall in *.
    intros l [<-|Hl].
    - apply (Hall first). exact (nth_error_In _ _ Hfirst).
    - apply (Hall l). apply (in_skipn (S i)). rewrite Hrest. apply in_or_app. now left. }
  exists (String.concat NEWLINE (first :: collect (skipn (S i) (lines_of text)))), rest.
  split; [reflexivity|]. split; [exact Hsplit|].
  rewrite Hsplit, <- app_comm_cons, <- Hrest, <- (skipn_nth_error _ _ _ Hfirst).
  symmetry. apply firstn_skipn.
Qed.

Lemma code_is_block_of_lines_witness :
  exists c rest,
    get_until_no_space (lines_of Stub.util_py) 0 = Ok c /\
    split line_feed c = "def outer():" :: collect (skipn 1 (lines_of Stub.util_py)) /\
    lines_of Stub.util_py
    = (firstn 0 (lines_of Stub.util_py) ++ split line_feed c ++ rest)%list.
Proof. apply (code_is_block_of_lines Stub.util_py 0 "def outer():"). reflexivity. Defined.

(* ================================================================== *)
(** * Names of the extracted functions *)

Lemma startswith_decompose (code p : string) :
  startswith code p = true -> exists s, code = p ++ s.
Proof.
  unfold startswith. revert code. induction p as [|c p IH]; intros code H.
  - now exists code.
  - destruct code as [|d code]; simpl in H; [discriminate|].
    destruct (ascii_dec c d) as [->|]; [|discriminate].
    destruct (IH _ H) as [s ->]. now exists s.
Qed.

Lemma find_char_split (c : ascii) (s : string) (j : nat) :
  find_char c s = Some j ->
  exists a b, s = a ++ String c b /\ String.length a = j /\ find_char c a = None.
Proof.
  revert j. induction s as [|d s IH]; intros j H; simpl in H; [discriminate|].
  destruct (Ascii.eqb_spec d c) as [->|Hne].
  - injection H as <-. now exists EmptyString, s.
  - destruct (find_char c s) as [k|]; [|discriminate]. injection H as <-.
    destruct (IH k eq_refl) as (a & b & -> & Hlen & Hnone).
    exists (String d a), b. simpl. rewrite Hlen, Hnone.
    destruct (Ascii.eqb_spec d c); [congruence | auto].
Qed.

Lemma prefixes_have_no_paren (p : string) :
  In p DEF_PREFIXES -> find_char "(" p = None.
Proof. simpl. intros [<-|[<-|[]]]; reflexivity. Qed.

(** A returned name is what stands between the prefix and the first
    opening parenthesis. *)
Lemma get_function_name_some_inv (code name : string) :
  get_function_name code = Ok (Some name) ->
  exists p rest,
    In p DEF_PREFIXES /\ code = p ++ name ++ String "(" rest /\
    contains "(" name = false.
Proof.
  intros H. destruct (is_def_start code) eqn:D.
  - destruct (get_function_name_matched _ D) as (p & Hp & Hsw & Heq).
    rewrite Heq in H. clear Heq. unfold str_index in H.
    destruct (find_char "(" code) as [k|] eqn:Hk; [|discriminate].
    simpl in H. injection H as <-.
    destruct (startswith_decompose _ _ Hsw) as [s ->].
    rewrite (find_char_app_r _ _ _ (prefixes_have_no_paren _ Hp)) in Hk.
    destruct (find_char "(" s) as [j|] eqn:Hj; [|discriminate].
    simpl in Hk. injection Hk as <-.
    destruct (find_char_split _ _ _ Hj) as (a & b & -> & <- & Hnone).
    exists p, b. split; [exact Hp|]. rewrite slice_between.
    split; [reflexivity|]. unfold contains. now rewrite Hnone.
  - assert (Hnone : get_function_name code = Ok None).
    { apply get_function_name_from_at. unfold is_def_start in D. simpl in *.
      apply orb_false_elim in D as [D1 D2]. apply orb_false_elim in D2 as [D2 _].
      now rewrite D1, D2. }
    rewrite Hnone in H. discriminate H.
Qed.

Lemma get_function_name_not_def (code : string) :
  is_def_start code = false -> get_function_name code = Ok None.
Proof.
  intros D. apply get_function_name_from_at. unfold is_def_start in D. simpl in *.
  apply orb_false_elim in D as [D1 D2]. apply orb_false_elim in D2 as [D2 _].
  now rewrite D1, D2.
Qed.

(** X4: the three outcomes of [get_function_name] tell the input apart: a
    name means the input is a prefix, the name (without an opening
    parenthesis), an opening parenthesis and a rest; [None] means the input
    starts with no prefix; and the only exception is the [ValueError] of an
    input that starts with a prefix and has no opening parenthesis. *)
Theorem get_function_name_outcomes (code : string) :
  match get_function_name code with
  | Ok (Some name) =>
      exists p rest,
        In p DEF_PREFIXES /\ code = p ++ name ++ String "(" rest /\
        contains "(" name = false
  | Ok None => is_def_start code = false
  | Raise e =>
      e = ValueError /\ is_def_start code = true /\ contains "(" code = false
  end.
Proof.
  destruct (get_function_name code) as [[name|]|e] eqn:H.
  - now apply get_function_name_some_inv.
  - destruct (is_def_start code) eqn:D; [|reflexivity].
    destruct (contains "(" code) eqn:C.
    + destruct (get_function_name_matched _ D) as (p & _ & _ & Heq).
      rewrite Heq in H. unfold contains in C. unfold str_index in H.
      destruct (find_char "(" code); [discriminate H | discriminate C].
    + rewrite (get_function_name_raises _ D C) in H. discriminate H.
  - destruct (is_def_start code) eqn:D.
    + destruct (contains "(" code) eqn:C.
      * destruct (get_function_name_returns _ C) as [v Hv]. congruence.
      * rewrite (get_function_name_raises _ D C) in H. now injection H as <-.
    + rewrite (get_function_name_not_def _ D) in H. discriminate H.
Qed.

(** Each record of a scan carries the name found in its own code. *)
Lemma scan_names (path : string) (all_lines rest : list string) :
  forall pre recs,
    all_lines = (pre ++ rest)%list ->
    scan path all_lines (List.length pre) rest = Ok recs ->
    Forall (fun r => is_def_start (code r) = true /\
                     get_function_name (code r) = Ok (function_name r) /\
                     filepath r = path) recs.
Proof.
  induction rest as [|l rest IH]; intros pre recs Hall Hscan; simpl in Hscan.
  - injection Hscan as <-. constructor.
  - assert (Hnext : all_lines = ((pre ++ [l]) ++ rest)%list)
      by now rewrite <- app_assoc.
    assert (Hlen : List.length (pre ++ [l]) = S (List.length pre))
      by (rewrite length_app; simpl; lia).
    rewrite <- Hlen in Hscan.
    destruct (is_def_start l) eqn:D; [|now apply (IH (pre ++ [l])%list)].
    destruct (get_until_no_space_begins all_lines (List.length pre) l) as [tail Hc].
    { rewrite Hall. apply nth_error_middle. }
    rewrite Hc in Hscan. simpl in Hscan.
    destruct (get_function_name (l ++ tail)) as [name|] eqn:Hname; [|discriminate].
    simpl in Hscan.
    destruct (scan path all_lines (List.length (pre ++ [l])) rest) as [more|] eqn:E;
      [|discriminate].
    injection Hscan as <-. constructor.
    + simpl. split; [now apply is_def_start_app | split; [exact Hname | reflexivity]].
    + now apply (IH (pre ++ [l])%list).
Qed.

(** X5: every record extracted from a file has a function name, never
    [None]: its code is a definition prefix, that name, an opening
    parenthesis and a rest, the name has no opening parenthesis, and its
    file path is the path that was scanned. *)
Theorem extracted_records_are_named
  (path : string) (all_lines : list string) (recs : list FunctionRecord) :
  functions_of_lines path all_lines = Ok recs ->
  forall r, In r recs ->
    filepath r = path /\
    exists p name rest,
      In p DEF_PREFIXES /\ function_name r = Some name /\
      code r = p ++ name ++ String "(" rest /\ contains "(" name = false.
Proof.
  intros H r Hr.
  pose proof (scan_names path all_lines all_lines [] recs eq_refl H) as Hall.
  rewrite Forall_forall in Hall. destruct (Hall r Hr) as (D & Hname & Hpath).
  split; [exact Hpath|].
  destruct (function_name r) as [name|] eqn:E.
  - destruct (get_function_name_some_inv _ _ Hname) as (p & rest & Hp & Hcode & Hno).
    now exists p, name, rest.
  - exfalso. destruct (contains "(" (code r)) eqn:C.
    + destruct (get_function_name_matched _ D) as (p & _ & _ & Heq).
      rewrite Heq in Hname. unfold contains in C. unfold str_index in Hname.
      destruct (find_char "(" (code r)); [discriminate Hname | discriminate C].
    + rewrite (get_function_name_raises _ D C) in Hname. discriminate Hname.
Qed.

Lemma extracted_records_are_named_witness :
  filepath (mkFunctionRecord "async def fetch(url): return url" (Some "fetch") "util.py")
    = "util.py" /\
  exists p name rest,
    In p DEF_PREFIXES /\ Some "fetch" = Some name /\
    "async def fetch(url): return url" = p ++ name ++ String "(" rest /\
    contains "(" name = false.
Proof.
  apply (extracted_records_are_named "util.py" (lines_of Stub.util_py)
           [mkFunctionRecord
              ("def outer():" ++ NEWLINE ++ "    def inner():" ++ NEWLINE
               ++ "        pass" ++ NEWLINE)
              (Some "outer") "util.py";
            mkFunctionRecord "async def fetch(url): return url" (Some "fetch") "util.py"]).
  - reflexivity.
  - right. left. reflexivity.
Defined.

(* ================================================================== *)
(** * Order and origin of the extracted records *)

Lemma filepaths_of_scan (path : string) (ls : list string) (recs : list FunctionRecord) :
  Forall2 (fun l r => startswith (code r) l = true /\ filepath r = path) ls recs ->
  map filepath recs = repeat path (List.length ls).
Proof.
  induction 1 as [|l r ls recs [_ Hp] _ IH]; [reflexivity|].
  simpl. now rewrite Hp, IH.
Qed.

Section ExtractorOrder.

Variable glob_py : string -> list string.
Variable read_text : string -> result string.

Lemma get_functions_filepaths (path : string) (here : list FunctionRecord) :
  get_functions read_text path = Ok here ->
  map filepath here = repeat path (defs_in_file read_text path).
Proof.
  unfold get_functions, defs_in_file. destruct (read_text path) as [text|]; [|discriminate].
  simpl. intros H. unfold count_defs.
  apply filepaths_of_scan.
  exact (scan_records path (lines_of text) (lines_of text) [] here eq_refl H).
Qed.

Lemma all_functions_filepaths (code_files : list string) (recs : list FunctionRecord) :
  all_functions read_text code_files = Ok recs ->
  map filepath recs
  = flat_map (fun f => repeat f (defs_in_file read_text f)) code_files.
Proof.
  revert recs. induction code_files as [|f files IH]; intros recs H; simpl in H.
  - now injection H as <-.
  - destruct (get_functions read_text f) as [here|] eqn:Hf; [|discriminate].
    simpl in H. destruct (all_functions read_text files) as [more|]; [|discriminate].
    injection H as <-. simpl.
    now rewrite map_app, (get_functions_filepaths _ _ Hf), (IH more eq_refl).
Qed.

(** X6: when the extractor returns a list, its records come file by file
    in the order of the glob, each file contributing as many records as it
    has lines beginning with a definition prefix, and the two printed lines
    report the number of matching files and that total. *)
Theorem extracted_records_grouped_by_file
  (code_root : string) (out : list string) (recs : list FunctionRecord) :
  extract_functions_from_repo glob_py read_text code_root = Ok (out, Some recs) ->
  map filepath recs
  = flat_map (fun f => repeat f (defs_in_file read_text f)) (glob_py code_root) /\
  out = [files_message (List.length (glob_py code_root));
         functions_message (total_definitions glob_py read_text code_root)].
Proof.
  unfold extract_functions_from_repo, total_definitions. intros H.
  destruct (glob_py code_root) as [|f files] eqn:G; [discriminate H|].
  cbn [List.length Nat.eqb] in H.
  destruct (all_functions read_text (f :: files)) as [all|] eqn:E; [|discriminate H].
  simpl in H. injection H as <- <-.
  pose proof (all_functions_filepaths _ _ E) as Hpaths.
  split; [exact Hpaths|].
  assert (Hlen : List.length all
                 = list_sum (map (defs_in_file read_text) (f :: files))).
  { rewrite <- (length_map filepath), Hpaths, length_flat_map.
    f_equal. apply map_ext. intros g. apply repeat_length. }
  now rewrite Hlen.
Qed.

(** X8: the first matching file that cannot be read, or that holds a
    definition without an opening parenthesis in its code, makes the whole
    extraction raise its exception: the records of the files before it are
    not returned. *)
Theorem extraction_aborts_at_first_failure
  (code_root : string) (before after : list string) (f : string) (e : exn) :
  glob_py code_root = (before ++ f :: after)%list ->
  Forall (well_formed_file read_text) before ->
  get_functions read_text f = Raise e ->
  extract_functions_from_repo glob_py read_text code_root = Raise e.
Proof.
  intros G Hbefore Hf. unfold extract_functions_from_repo. rewrite G.
  assert (Hall : all_functions read_text (before ++ f :: after) = Raise e).
  { clear G. induction Hbefore as [|g files Hg _ IH]; simpl.
    - now rewrite Hf.
    - destruct (get_functions_well_formed read_text g Hg) as (here & -> & _).
      simpl. now rewrite IH. }
  rewrite Hall.
  destruct before; reflexivity.
Qed.

End ExtractorOrder.

Lemma extracted_records_grouped_by_file_witness :
  map filepath
    [mkFunctionRecord
       ("def outer():" ++ NEWLINE ++ "    def inner():" ++ NEWLINE
        ++ "        pass" ++ NEWLINE)
       (Some "outer") "repo/util.py";
     mkFunctionRecord "async def fetch(url): return url" (Some "fetch") "repo/util.py"]
  = flat_map (fun f => repeat f (defs_in_file Stub.read_text f)) (Stub.glob_py "repo") /\
  ["Total number of .py files: 1"; "Total number of functions extracted: 2"]
  = [files_message (List.length (Stub.glob_py "repo"));
     functions_message (total_definitions Stub.glob_py Stub.read_text "repo")].
Proof.
  apply (extracted_records_grouped_by_file Stub.glob_py Stub.read_text "repo").
  reflexivity.
Defined.

Lemma extraction_aborts_at_first_failure_witness :
  extract_functions_from_repo
    (fun _ => ["repo/util.py"; "repo/gone.py"; "repo/util.py"]) Stub.read_text "repo"
  = Raise OSError.
Proof.
  apply (extraction_aborts_at_first_failure
           (fun _ => ["repo/util.py"; "repo/gone.py"; "repo/util.py"]) Stub.read_text
           "repo" ["repo/util.py"] ["repo/util.py"] "repo/gone.py" OSError).
  - reflexivity.
  - constructor; [|constructor]. exists Stub.util_py. split; reflexivity.
  - reflexivity.
Defined.

Lemma extractor_returns_iff_witness :
  Forall (well_formed_file Stub.read_text) (Stub.glob_py "repo").
Proof.
  apply (proj1 (extractor_returns_iff Stub.glob_py Stub.read_text "repo")).
  eexists. reflexivity.
Defined.

(* ================================================================== *)
(** * More on search_functions *)

Lemma head_splits {A : Type} (n : Z) (rows : list A) :
  exists rest, rows = (head n rows ++ rest)%list.
Proof.
  unfold head. destruct (0 <=? n)%Z.
  - exists (skipn (Z.to_nat n) rows). symmetry. apply firstn_skipn.
  - exists (skipn (List.length rows - Z.to_nat (- n)) rows). symmetry. apply firstn_skipn.
Qed.

Lemma StronglySorted_app_cross {A : Type} (R : A -> A -> Prop) (l1 l2 : list A) :
  StronglySorted R (l1 ++ l2) ->
  forall a b, In a l1 -> In b l2 -> R a b.
Proof.
  induction l1 as [|x l1 IH]; intros Hs a b Ha Hb; [contradiction|].
  simpl in Hs. apply StronglySorted_inv in Hs as [Hs Hx].
  destruct Ha as [<-|Ha].
  - rewrite Forall_forall in Hx. apply Hx. apply in_or_app. now right.
  - now apply IH.
Qed.

Section SearcherMore.

Context {Embedding Score : Type}.
Variable score_leb : Score -> Score -> bool.
Variable get_embedding : string -> string -> result Embedding.
Variable cosine_similarity : Embedding -> Embedding -> Score.
Variable sort_values_desc : list (nat * Row Embedding Score) -> list (nat * Row Embedding Score).

Lemma search_inv (df df' : DataFrame Embedding Score) (q : string) (n : Z)
  (res : list (nat * Row Embedding Score)) :
  search_functions get_embedding cosine_similarity sort_values_desc
    df q n = Ok (df', res) ->
  exists e,
    get_embedding q MODEL = Ok e /\
    df' = assign_similarities cosine_similarity df e /\
    res = head n (sort_values_desc (with_index df')).
Proof.
  unfold search_functions. destruct (get_embedding q MODEL) as [e|]; [|discriminate].
  simpl. intros H. injection H as <- <-. now exists e.
Qed.

(** X9: a search is not affected by the searches made before it on the
    same table: it leaves the table, and returns the rows, as it would on
    the table that was never searched; searching twice for the same query
    changes nothing the second time. *)
Theorem search_ignores_earlier_search
  (df df1 : DataFrame Embedding Score) (q1 q2 : string) (n1 n2 : Z)
  (res1 : list (nat * Row Embedding Score)) :
  search_functions get_embedding cosine_similarity sort_values_desc
    df q1 n1 = Ok (df1, res1) ->
  search_functions get_embedding cosine_similarity sort_values_desc df1 q2 n2
  = search_functions get_embedding cosine_similarity sort_values_desc df q2 n2 /\
  search_functions get_embedding cosine_similarity sort_values_desc
    df1 q1 n1 = Ok (df1, res1).
Proof.
  intros H. destruct (search_inv _ _ _ _ _ H) as (e1 & He1 & -> & ->).
  assert (Hover : forall e,
             assign_similarities cosine_similarity
               (assign_similarities cosine_similarity df e1) e
             = assign_similarities cosine_similarity df e).
  { intros e. unfold assign_similarities. rewrite map_map. reflexivity. }
  split.
  - unfold search_functions. destruct (get_embedding q2 MODEL) as [e2|]; [|reflexivity].
    simpl. now rewrite Hover.
  - unfold search_functions. rewrite He1. simpl. now rewrite Hover.
Qed.

(** X10: the rows a search returns are rows of the table as the search
    leaves it, each taken at most once: together with the rows it leaves
    out they make up exactly that table. *)
Theorem search_results_are_corpus_rows
  (df df' : DataFrame Embedding Score) (q : string) (n : Z)
  (res : list (nat * Row Embedding Score)) :
  (forall l, Permutation (sort_values_desc l) l) ->
  search_functions get_embedding cosine_similarity sort_values_desc
    df q n = Ok (df', res) ->
  exists rest, Permutation (map snd res ++ rest) df'.
Proof.
  intros Hperm H. destruct (search_inv _ _ _ _ _ H) as (e & _ & Hdf & ->).
  destruct (head_splits n (sort_values_desc (with_index df'))) as [rest Hrest].
  exists (map snd rest). rewrite <- map_app, <- Hrest.
  rewrite (Permutation_map snd (Hperm _)). now rewrite with_index_snd.
Qed.

(** X11: when no similarity of a record with the query is a NaN, the rows
    a search returns are the most similar ones: the rows of the table split
    into those returned and the rest, and the embedding of each returned
    row has a cosine similarity with the query at least that of each row
    of the rest. *)
Theorem search_returns_most_similar
  (df df' : DataFrame Embedding Score) (q : string) (n : Z) (e : Embedding)
  (res : list (nat * Row Embedding Score)) :
  sorts_comparable score_leb sort_values_desc ->
  get_embedding q MODEL = Ok e ->
  comparable_with score_leb cosine_similarity df e ->
  search_functions get_embedding cosine_similarity sort_values_desc
    df q n = Ok (df', res) ->
  exists rest,
    Permutation (map snd (res ++ rest)) df' /\
    forall a b, In a res -> In b rest ->
      at_least_as_similar score_leb cosine_similarity e a b.
Proof.
  intros Hsort He Hcmp H.
  destruct (search_inv _ _ _ _ _ H) as (e' & He' & Hdf & ->).
  assert (e' = e) as -> by congruence.
  destruct (Hsort (with_index df')) as [Hperm Hsorted].
  destruct (head_splits n (sort_values_desc (with_index df'))) as [rest Hrest].
  exists rest. rewrite <- Hrest. split.
  - rewrite (Permutation_map snd Hperm). apply Permutation_refl'. apply with_index_snd.
  - intros a b Ha Hb.
    assert (Hrows : forall x, In x (sort_values_desc (with_index df')) ->
               scored_by_query cosine_similarity e x).
    { intros x Hx. apply (Permutation_in _ Hperm) in Hx. rewrite Hdf in Hx.
      now apply (assigned_rows cosine_similarity) in Hx. }
    assert (Hab : sim_ge score_leb a b).
    { apply (StronglySorted_app_cross _ (head n (sort_values_desc (with_index df'))) rest);
        [|exact Ha | exact Hb].
      rewrite <- Hrest. apply Hsorted. rewrite Hdf.
      now apply assigned_rows_comparable. }
    assert (Hsa : scored_by_query cosine_similarity e a).
    { apply Hrows. rewrite Hrest. apply in_or_app. now left. }
    assert (Hsb : scored_by_query cosine_similarity e b).
    { apply Hrows. rewrite Hrest. apply in_or_app. now right. }
    unfold sim_ge, at_least_as_similar, scored_by_query in *. now rewrite Hsa, Hsb in Hab.
Qed.

(** X12: the number of rows returned for any integer [n]: the smaller of
    [n] and the size of the table when [n] is not negative, so none for
    [n = 0]; and all but [-n] rows, or none if there are not that many,
    when [n] is negative.  The table keeps its number of rows. *)
Theorem search_row_count
  (df df' : DataFrame Embedding Score) (q : string) (n : Z)
  (res : list (nat * Row Embedding Score)) :
  (forall l, Permutation (sort_values_desc l) l) ->
  search_functions get_embedding cosine_similarity sort_values_desc
    df q n = Ok (df', res) ->
  List.length df' = List.length df /\
  ((0 <= n)%Z -> List.length res = Nat.min (Z.to_nat n) (List.length df)) /\
  ((n < 0)%Z -> List.length res = List.length df - Z.to_nat (- n)).
Proof.
  intros Hperm H. destruct (search_inv _ _ _ _ _ H) as (e & _ & Hdf & ->).
  assert (Hlen : List.length df' = List.length df).
  { rewrite Hdf. apply assign_similarities_length. }
  assert (Hsorted : List.length (sort_values_desc (with_index df')) = List.length df).
  { now rewrite (Permutation_length (Hperm _)), with_index_length. }
  split; [exact Hlen|]. unfold head. split; intros Hn.
  - destruct (Z.leb_spec 0 n); [|lia]. now rewrite length_firstn, Hsorted.
  - destruct (Z.leb_spec 0 n); [lia|]. rewrite length_firstn, Hsorted. lia.
Qed.

End SearcherMore.

Lemma stable_sort_permutes (l : list (nat * Row Stub.Embedding Stub.Score)) :
  Permutation (Stub.stable_sort l) l.
Proof. apply insertion_sort_perm. Qed.

Lemma search_ignores_earlier_search_witness :
  Stub.search (assign_similarities Stub.similarity Stub.corpus [4; 1]%Z) "neg" 1
  = Stub.search Stub.corpus "neg" 1 /\
  Stub.search (assign_similarities Stub.similarity Stub.corpus [4; 1]%Z) "sub(" 2
  = Stub.search Stub.corpus "sub(" 2.
Proof.
  apply (search_ignores_earlier_search Stub.get_embedding Stub.similarity
           Stub.stable_sort Stub.corpus _ "sub(" "neg" 2 1 _).
  reflexivity.
Defined.

Lemma search_results_are_corpus_rows_witness :
  exists df' res rest,
    Stub.search Stub.corpus "sub(" 2 = Ok (df', res) /\
    Permutation (map snd res ++ rest) df'.
Proof.
  destruct (search_results_are_corpus_rows Stub.get_embedding Stub.similarity
              Stub.stable_sort Stub.corpus _ "sub(" 2 _ stable_sort_permutes eq_refl)
    as [rest Hrest].
  do 3 eexists. split; [reflexivity | exact Hrest].
Defined.

Lemma search_returns_most_similar_witness :
  exists df' res rest,
    Stub.search Stub.corpus "sub(" 2 = Ok (df', res) /\
    Permutation (map snd (res ++ rest)) df' /\
    forall a b, In a res -> In b rest ->
      at_least_as_similar Stub.score_leb Stub.similarity [4; 1]%Z a b.
Proof.
  destruct (search_returns_most_similar Stub.score_leb Stub.get_embedding
              Stub.similarity Stub.stable_sort Stub.corpus _ "sub(" 2 [4; 1]%Z _
              stable_sort_sorts_comparable eq_refl (corpus_comparable _) eq_refl)
    as [rest Hrest].
  do 3 eexists. split; [reflexivity | exact Hrest].
Defined.

Lemma search_row_count_witness :
  exists df' res,
    Stub.search Stub.corpus "sub(" (-1) = Ok (df', res) /\
    List.length df' = 3 /\
    ((0 <= -1)%Z -> List.length res = Nat.min (Z.to_nat (-1)) 3) /\
    ((-1 < 0)%Z -> List.length res = 3 - Z.to_nat (- -1)).
Proof.
  do 2 eexists. split; [reflexivity|].
  apply (search_row_count Stub.get_embedding Stub.similarity Stub.stable_sort
           Stub.corpus _ "sub(" (-1) _ stable_sort_permutes).
  reflexivity.
Defined.

(* ================================================================== *)
(** * The printed preview *)

Lemma append_empty_r (s : string) : s ++ EmptyString = s.
Proof. induction s as [|c s IH]; simpl; [reflexivity | now rewrite IH]. Qed.

Lemma append_assoc (a b c : string) : (a ++ b) ++ c = a ++ (b ++ c).
Proof. induction a as [|x a IH]; simpl; [reflexivity | now rewrite IH]. Qed.

Lemma concat_firstn_prefix (sep : string) (ls : list string) :
  forall m, exists tail,
    String.concat sep ls = String.concat sep (firstn m ls) ++ tail.
Proof.
  induction ls as [|x xs IH]; intros m.
  - exists EmptyString. now destruct m.
  - destruct m as [|m]; [now exists (String.concat sep (x :: xs))|].
    destruct xs as [|y ys].
    + exists EmptyString. destruct m; simpl; now rewrite append_empty_r.
    + destruct (IH m) as [tail Htail].
      destruct m as [|m].
      * exists (sep ++ String.concat sep (y :: ys)). reflexivity.
      * change (firstn (S (S m)) (x :: y :: ys)) with (x :: y :: firstn m ys).
        change (firstn (S m) (y :: ys)) with (y :: firstn m ys) in Htail.
        exists tail.
        rewrite (concat_cons sep x (y :: ys)) by discriminate.
        rewrite (concat_cons sep x (y :: firstn m ys)) by discriminate.
        now rewrite Htail, !append_assoc.
Qed.

(** X13: the preview printed for a code field is always a beginning of
    that code; it is the whole code when the code has at most [n_lines]
    lines; and for a positive [n_lines] it consists of the first [n_lines]
    lines of the code, or of all of them if there are fewer. *)
Theorem preview_is_beginning_of_code (c : string) (n_lines : Z) :
  (exists tail, c = preview c n_lines ++ tail) /\
  ((Z.of_nat (List.length (split line_feed c)) <= n_lines)%Z -> preview c n_lines = c) /\
  ((0 < n_lines)%Z ->
   split line_feed (preview c n_lines) = firstn (Z.to_nat n_lines) (split line_feed c)).
Proof.
  unfold preview, head. split; [|split].
  - destruct (0 <=? n_lines)%Z.
    + destruct (concat_firstn_prefix NEWLINE (split line_feed c) (Z.to_nat n_lines))
        as [tail Htail].
      exists tail. rewrite <- Htail. symmetry. apply concat_split.
    + destruct (concat_firstn_prefix NEWLINE (split line_feed c)
                  (List.length (split line_feed c) - Z.to_nat (- n_lines)))
        as [tail Htail].
      exists tail. rewrite <- Htail. symmetry. apply concat_split.
  - intros Hn. destruct (Z.leb_spec 0 n_lines); [|lia].
    rewrite firstn_all2 by lia. apply concat_split.
  - intros Hn. destruct (Z.leb_spec 0 n_lines); [|lia].
    apply split_concat.
    + destruct (split line_feed c) as [|l ls] eqn:E; [now elim (split_not_nil line_feed c)|].
      destruct (Z.to_nat n_lines) eqn:En; [lia | discriminate].
    + pose proof (split_pieces_avoid line_feed line_feed c (or_introl eq_refl)) as Hall.
      rewrite Forall_forall in *. intros l Hl. apply Hall.
      rewrite <- (firstn_skipn (Z.to_nat n_lines)). apply in_or_app. now left.
Qed.

Lemma preview_is_beginning_of_code_witness :
  preview Stub.util_py 7 = Stub.util_py /\
  split line_feed (preview Stub.util_py 2) = firstn 2 (split line_feed Stub.util_py).
Proof.
  destruct (preview_is_beginning_of_code Stub.util_py 7) as (_ & Hall & _).
  destruct (preview_is_beginning_of_code Stub.util_py 2) as (_ & _ & Hfirst).
  split; [apply Hall; vm_compute; discriminate | apply Hfirst; lia].
Defined.

Section PrintingFacts.

Context {Embedding Score : Type}.
Variable show_rounded : Score -> string.
Variable get_embedding : string -> string -> result Embedding.
Variable cosine_similarity : Embedding -> Embedding -> Score.
Variable sort_values_desc : list (nat * Row Embedding Score) -> list (nat * Row Embedding Score).

Lemma printed_rows_length (n_lines : Z) (res : list (nat * Row Embedding Score)) :
  List.length (flat_map (print_row show_rounded n_lines) res) = 3 * List.length res.
Proof. induction res as [|r res IH]; simpl; [reflexivity | rewrite IH; lia]. Qed.

Lemma printed_rows_lookup (n_lines : Z) (res : list (nat * Row Embedding Score)) :
  forall j r,
    nth_error res j = Some r ->
    nth_error (flat_map (print_row show_rounded n_lines) res) (3 * j + 1)
      = Some (preview (code (func (snd r))) n_lines) /\
    nth_error (flat_map (print_row show_rounded n_lines) res) (3 * j + 2)
      = Some SEPARATOR.
Proof.
  induction res as [|x res IH]; intros [|j] r H; simpl in H; try discriminate.
  - injection H as ->. split; reflexivity.
  - replace (3 * S j + 1) with (S (S (S (3 * j + 1)))) by lia.
    replace (3 * S j + 2) with (S (S (S (3 * j + 2)))) by lia.
    exact (IH j r H).
Qed.

(** X14: with [pprint] off a search prints nothing; with it on it prints
    three items for each returned row, in the order of the rows: a header,
    the preview of the row's code, and a line of seventy dashes.  Either
    way the table and the rows returned are those of the search without
    printing. *)
Theorem pprint_prints_three_items_per_row
  (df df' : DataFrame Embedding Score) (q : string) (n n_lines : Z) (pprint : bool)
  (out : list string) (res : list (nat * Row Embedding Score)) :
  search_functions_pprint show_rounded get_embedding cosine_similarity sort_values_desc
    df q n pprint n_lines = Ok (out, (df', res)) ->
  search_functions get_embedding cosine_similarity sort_values_desc df q n
    = Ok (df', res) /\
  (pprint = false -> out = []) /\
  (pprint = true ->
   List.length out = 3 * List.length res /\
   forall j r, nth_error res j = Some r ->
     nth_error out (3 * j + 1) = Some (preview (code (func (snd r))) n_lines) /\
     nth_error out (3 * j + 2) = Some SEPARATOR).
Proof.
  unfold search_functions_pprint. intros H.
  destruct (search_functions get_embedding cosine_similarity sort_values_desc df q n)
    as [[df0 res0]|]; [|discriminate].
  simpl in H. injection H as <- <- <-.
  split; [reflexivity|]. split; intros ->; [reflexivity|]. split.
  - apply printed_rows_length.
  - apply printed_rows_lookup.
Qed.

End PrintingFacts.

Lemma pprint_prints_three_items_per_row_witness :
  exists out df' res,
    search_functions_pprint (fun _ => "0.5") Stub.get_embedding Stub.similarity
      Stub.stable_sort Stub.corpus "sub(" 2 true 7 = Ok (out, (df', res)) /\
    Stub.search Stub.corpus "sub(" 2 = Ok (df', res) /\
    (true = false -> out = []) /\
    (true = true ->
     List.length out = 3 * List.length res /\
     forall j r, nth_error res j = Some r ->
       nth_error out (3 * j + 1) = Some (preview (code (func (snd r))) 7) /\
       nth_error out (3 * j + 2) = Some SEPARATOR).
Proof.
  do 3 eexists. split; [reflexivity|].
  apply (pprint_prints_three_items_per_row (fun _ => "0.5") Stub.get_embedding
           Stub.similarity Stub.stable_sort Stub.corpus _ "sub(" 2 7 true _ _).
  reflexivity.
Defined.

(* ================================================================== *)
(** * Cosine similarity: symmetry and self-similarity *)

Module CosineFacts.

Import Stdlib.Floats.PrimFloat Stdlib.Floats.FloatOps.
Import Stdlib.Floats.FloatAxioms Stdlib.Floats.SpecFloat.
Import embeddings_utils.

Lemma SF64mul_comm (x y : spec_float) : SF64mul x y = SF64mul y x.
Proof.
  unfold SF64mul, SFmul.
  destruct x as [sx|sx| |sx mx ex], y as [sy|sy| |sy my ey]; try reflexivity;
    rewrite ?(xorb_comm sx sy); try reflexivity.
  now rewrite (Pos.mul_comm mx my), (Z.add_comm ex ey).
Qed.

Lemma mul_comm (x y : float) : mul x y = mul y x.
Proof. apply Prim2SF_inj. rewrite !mul_spec. apply SF64mul_comm. Qed.











End CosineFacts.
